(** * CamMatrixCapture: the Sapera RAW reader and the HTTP bridge

    A shallow embedding of [read_sapera_raw.py] (class [SaperaRawReader]) and
    of [web-bridge/web_bridge.py] (the command runner and the four endpoints
    that call it), followed by the properties of the specification that were
    checked against them.

    Conventions of the embedding:
    - Python [int] is [Z]; a [bytes] object is a [list byte];
    - a NumPy array is its element type, its shape and its row-major data;
    - [print] appends a structured message to a log carried in the state;
      [print_to] names the console, since a console with a legacy code
      page cannot encode the symbols of most messages and [print] raises
      there; unless a statement names the console, it is one that can
      encode every message;
    - a method that mutates [self] threads the reader through a state and
      exception monad [M]; a raised exception keeps the mutations made
      before it, as in Python. *)

From Stdlib Require Import ZArith List String Ascii Bool Lia.
From Stdlib Require Import Strings.Byte.
Import ListNotations.
Local Open Scope Z_scope.

(* ================================================================== *)
(** ** NumPy fragment used by the reader *)
(* ================================================================== *)

Module Numpy.

Inductive dtype := uint16 | uint8.

Definition dtype_eqb (a b : dtype) : bool :=
  match a, b with
  | uint16, uint16 | uint8, uint8 => true
  | _, _ => false
  end.

(** Byte order of the platform that runs the script ([np.uint16] is the
    native-endian 16-bit unsigned type). *)
Inductive byteorder := LittleEndian | BigEndian.

Inductive exn :=
| OSError (msg : string)
| ValueError (msg : string).

(** Outcome of a Python expression: a value or a raised exception. *)
Inductive outcome (A : Type) :=
| Ret (a : A)
| Raise (e : exn).
Arguments Ret {A} a.
Arguments Raise {A} e.

Record ndarray := mk_ndarray {
  arr_dtype : dtype;
  arr_shape : list Z;
  arr_data : list Z
}.

Definition byte_val (b : byte) : Z := Z.of_N (Byte.to_N b).

Definition word16 (order : byteorder) (b0 b1 : byte) : Z :=
  match order with
  | LittleEndian => byte_val b0 + 256 * byte_val b1
  | BigEndian => 256 * byte_val b0 + byte_val b1
  end.

(** Consecutive byte pairs read as 16-bit words; a trailing single byte
    is never reached because [frombuffer] checks the length first. *)
Fixpoint words16 (order : byteorder) (raw : list byte) : list Z :=
  match raw with
  | b0 :: b1 :: rest => word16 order b0 b1 :: words16 order rest
  | _ => []
  end.

Definition itemsize (dt : dtype) : Z :=
  match dt with uint16 => 2 | uint8 => 1 end.

Definition size (a : ndarray) : Z := Z.of_nat (List.length (arr_data a)).

(** [np.frombuffer(raw, dtype=dt)]: a one-dimensional array over the
    buffer; [ValueError] when the buffer length is not a multiple of the
    element size. *)
Definition frombuffer (order : byteorder) (raw : list byte) (dt : dtype)
  : outcome ndarray :=
  let n := Z.of_nat (List.length raw) in
  if n mod itemsize dt =? 0 then
    match dt with
    | uint8 => Ret (mk_ndarray uint8 [n] (map byte_val raw))
    | uint16 => Ret (mk_ndarray uint16 [n / 2] (words16 order raw))
    end
  else Raise (ValueError "buffer size must be a multiple of element size").

(** The largest value of NumPy's index type [npy_intp] on a 64-bit
    platform; a dimension is held in that type. *)
Definition max_intp : Z := 2 ^ 63 - 1.

Definition fits_intp (d : Z) : bool :=
  (- max_intp - 1 <=? d) && (d <=? max_intp).

(** The bytes NumPy counts when it creates an array of that shape: the
    element size times the dimensions, a dimension of 0 being left out.
    Creation is refused when the count does not fit [npy_intp]. *)
Definition counted_bytes (dt : dtype) (shape : list Z) : Z :=
  fold_left (fun bytes d => if d =? 0 then bytes else bytes * d) shape
    (itemsize dt).

Definition too_big (dt : dtype) (shape : list Z) : bool :=
  max_intp <? counted_bytes dt shape.

(** The array object of a given shape over given data, or [ValueError]. *)
Definition new_array (dt : dtype) (shape : list Z) (data : list Z)
  : outcome ndarray :=
  if too_big dt shape then Raise (ValueError "array is too big")
  else Ret (mk_ndarray dt shape data).

(** [a.reshape((h, w))]. A dimension that does not fit [npy_intp] raises
    [ValueError]; a negative entry stands for the one dimension to be
    inferred; two of them, or a size that does not fit, raise
    [ValueError]. *)
Definition reshape (a : ndarray) (h w : Z) : outcome ndarray :=
  let n := size a in
  let mismatch := Raise (ValueError "cannot reshape array") in
  if negb (fits_intp h && fits_intp w) then
    Raise (ValueError "Maximum allowed dimension exceeded")
  else if (h <? 0) && (w <? 0) then
    Raise (ValueError "can only specify one unknown dimension")
  else if h <? 0 then
    if (w =? 0) || negb (n mod w =? 0) then mismatch
    else new_array (arr_dtype a) [n / w; w] (arr_data a)
  else if w <? 0 then
    if (h =? 0) || negb (n mod h =? 0) then mismatch
    else new_array (arr_dtype a) [h; n / h] (arr_data a)
  else if n =? h * w then
    new_array (arr_dtype a) [h; w] (arr_data a)
  else mismatch.

(** [a.astype(np.uint16)] and [a.astype(np.uint8)]: C-style conversion,
    which keeps the low bits. The result is a new array of the same shape;
    see [widened] for the case where it cannot be created. *)
Definition astype (a : ndarray) (dt : dtype) : ndarray :=
  match dt with
  | uint16 => mk_ndarray uint16 (arr_shape a)
                (map (fun v => v mod 65536) (arr_data a))
  | uint8 => mk_ndarray uint8 (arr_shape a)
                (map (fun v => v mod 256) (arr_data a))
  end.

Definition modulus (dt : dtype) : Z :=
  match dt with uint16 => 65536 | uint8 => 256 end.

(** [a << k] for a Python integer [k]: the result keeps the element type
    of [a], so bits shifted past its width are lost. *)
Definition lshift (a : ndarray) (k : Z) : ndarray :=
  mk_ndarray (arr_dtype a) (arr_shape a)
    (map (fun v => Z.shiftl v k mod modulus (arr_dtype a)) (arr_data a)).

(** [a >> k] for a Python integer [k]. *)
Definition rshift (a : ndarray) (k : Z) : ndarray :=
  mk_ndarray (arr_dtype a) (arr_shape a)
    (map (fun v => Z.shiftr v k) (arr_data a)).

(** [a.astype(np.uint16)] on an array of bytes: the new array has elements
    of twice the size, and is refused when it would be too big. *)
Definition widened (a : ndarray) : outcome ndarray :=
  if too_big uint16 (arr_shape a) then Raise (ValueError "array is too big")
  else Ret (astype a uint16).

End Numpy.
Import Numpy.

(* ================================================================== *)
(** ** read_sapera_raw.py: class SaperaRawReader *)
(* ================================================================== *)

Record SaperaRawReader := mk_reader {
  width : Z;
  height : Z;
  bit_depth : Z;
  bytes_per_pixel : Z
}.

(** [__init__(self, width=4112, height=3008, bit_depth=12)]. *)
Definition init (w h bits : Z) : SaperaRawReader := mk_reader w h bits 2.

Definition default_reader : SaperaRawReader := init 4112 3008 12.

(** One constructor per [print] of [read_raw_file] and [demosaic_bayer];
    the arguments are the values interpolated into the message. *)
Inductive message :=
| MsgFileSize (actual_size : Z)
| MsgExpectedSize (description : string) (expected_size : Z)
| MsgDetected (description : string) (w h : Z)
| MsgNoExactMatch
| MsgAutoDetected (w h : Z) (description : string)
| MsgCouldNotDetect
| MsgErrorReading (e : exn)
| MsgUnknownPattern (pattern : string).

(** *** State and exception monad of the methods *)

Definition state : Type := SaperaRawReader * list message.

Definition M (A : Type) : Type := state -> outcome A * state.

Definition ret {A} (a : A) : M A := fun s => (Ret a, s).

Definition bind {A B} (m : M A) (f : A -> M B) : M B :=
  fun s =>
    match m s with
    | (Ret a, s') => f a s'
    | (Raise e, s') => (Raise e, s')
    end.

Notation "x <- m ;; k" := (bind m (fun x => k))
  (at level 61, m at next level, right associativity).
Notation "m ;;; k" := (bind m (fun _ => k))
  (at level 61, right associativity).

Definition lift {A} (o : outcome A) : M A := fun s => (o, s).

Definition get_self : M SaperaRawReader := fun s => (Ret (fst s), s).

(** [sys.stdout]: it can encode every character ([Unicode]), or it has a
    legacy code page (ASCII, cp1252) that lacks the symbols most messages
    start with ([Legacy]). *)
Inductive console := Unicode | Legacy.

(** The messages written in ASCII only: those of lines 45 and 55. *)
Definition plain (m : message) : bool :=
  match m with
  | MsgFileSize _ | MsgExpectedSize _ _ => true
  | _ => false
  end.

(** [print(...)]: on a legacy console a message with a symbol raises
    [UnicodeEncodeError], a [ValueError], and nothing is printed. *)
Definition print_to (out : console) (m : message) : M unit :=
  fun s =>
    match out with
    | Unicode => (Ret tt, (fst s, snd s ++ [m]))
    | Legacy =>
        if plain m then (Ret tt, (fst s, snd s ++ [m]))
        else (Raise (ValueError "UnicodeEncodeError"), s)
    end.

(** [print] on a console that can encode every message. *)
Definition print (m : message) : M unit := print_to Unicode m.

Definition set_bytes_per_pixel (b : Z) : M unit :=
  fun s =>
    let r := fst s in
    (Ret tt, (mk_reader (width r) (height r) (bit_depth r) b, snd s)).

Definition set_width_height (w h : Z) : M unit :=
  fun s =>
    let r := fst s in
    (Ret tt, (mk_reader w h (bit_depth r) (bytes_per_pixel r), snd s)).

(** [try: m except Exception as e: h e]. *)
Definition try_except {A} (m : M A) (h : exn -> M A) : M A :=
  fun s =>
    match m s with
    | (Ret a, s') => (Ret a, s')
    | (Raise e, s') => h e s'
    end.

(** A [for] loop whose body may [return]: [Some r] leaves the function
    with [r], [None] goes on with the next element. *)
Fixpoint for_return {X R} (xs : list X) (body : X -> M (option R))
  : M (option R) :=
  match xs with
  | [] => ret None
  | x :: rest =>
      o <- body x ;;
      match o with
      | Some r => ret (Some r)
      | None => for_return rest body
      end
  end.

(** *** read_raw_file *)

Definition formats_to_try : list (Z * dtype * string) :=
  [ (2, uint16, "16-bit"%string); (1, uint8, "8-bit"%string) ].

Definition common_resolutions : list (Z * Z) :=
  [ (4112, 3008); (2056, 1504); (1028, 752) ].

Section Reader.

Variable out : console.
Variable native : byteorder.

(** Lines 62-69, and again 91-98: buffer to array, reshape to
    [(self.height, self.width)], scale to 16 bits. *)
Definition to_image (raw_data : list byte) (dt : dtype) : M ndarray :=
  raw_array <- lift (frombuffer native raw_data dt) ;;
  self <- get_self ;;
  image <- lift (reshape raw_array (height self) (width self)) ;;
  if dtype_eqb dt uint8 then
    image16 <- lift (widened image) ;;
    ret (lshift image16 8)
  else if (bit_depth self =? 12) && dtype_eqb dt uint16 then
    ret (lshift image 4)
  else
    ret image.

(** Lines 53-71: the hinted size at 2 bytes, then at 1 byte per pixel. *)
Definition try_hinted_on (raw_data : list byte) : M (option ndarray) :=
  let actual_size := Z.of_nat (List.length raw_data) in
  for_return formats_to_try (fun '(bytes_per_pixel, dt, description) =>
    self <- get_self ;;
    let expected_size := width self * height self * bytes_per_pixel in
    print_to out (MsgExpectedSize description expected_size) ;;;
    if actual_size =? expected_size then
      print_to out (MsgDetected description (width self) (height self)) ;;;
      set_bytes_per_pixel bytes_per_pixel ;;;
      image <- to_image raw_data dt ;;
      ret (Some image)
    else ret None).

(** Lines 83-100: the known resolutions, for 2 bytes and then 1 byte per
    pixel; [//] is floor division. *)
Definition auto_detect_on (raw_data : list byte) : M (option ndarray) :=
  let actual_size := Z.of_nat (List.length raw_data) in
  for_return formats_to_try (fun '(bytes_per_pixel, dt, description) =>
    let total_pixels := actual_size / bytes_per_pixel in
    for_return common_resolutions (fun '(w, h) =>
      if w * h =? total_pixels then
        print_to out (MsgAutoDetected w h description) ;;;
        set_width_height w h ;;;
        set_bytes_per_pixel bytes_per_pixel ;;;
        image <- to_image raw_data dt ;;
        ret (Some image)
      else ret None)).

(** The body of the [try] block. [file] is the outcome of opening and
    reading [filepath] (lines 41-42): the bytes, or the exception. *)
Definition read_raw_file_body_on (file : outcome (list byte))
  : M (option ndarray) :=
  raw_data <- lift file ;;
  print_to out (MsgFileSize (Z.of_nat (List.length raw_data))) ;;;
  hinted <- try_hinted_on raw_data ;;
  match hinted with
  | Some image => ret (Some image)
  | None =>
      print_to out MsgNoExactMatch ;;;
      detected <- auto_detect_on raw_data ;;
      match detected with
      | Some image => ret (Some image)
      | None => print_to out MsgCouldNotDetect ;;; ret None
      end
  end.

(** [read_raw_file(self, filepath)]; [None] is Python's [None]. What the
    [print] of the [except] clause raises leaves the method. *)
Definition read_raw_file_on (file : outcome (list byte))
  : M (option ndarray) :=
  try_except (read_raw_file_body_on file)
    (fun e => print_to out (MsgErrorReading e) ;;; ret None).

End Reader.

(** The method and its parts on a console that can encode every message;
    this is the reader of all that follows, except where a console is
    named. *)
Definition try_hinted (native : byteorder) (raw_data : list byte)
  : M (option ndarray) :=
  try_hinted_on Unicode native raw_data.

Definition auto_detect (native : byteorder) (raw_data : list byte)
  : M (option ndarray) :=
  auto_detect_on Unicode native raw_data.

Definition read_raw_file_body (native : byteorder)
  (file : outcome (list byte)) : M (option ndarray) :=
  read_raw_file_body_on Unicode native file.

Definition read_raw_file (native : byteorder) (file : outcome (list byte))
  : M (option ndarray) :=
  read_raw_file_on Unicode native file.

(** *** demosaic_bayer *)

(** Values of the OpenCV conversion codes named by [pattern_map] (OpenCV's
    [imgproc.hpp]; the RGB names are aliases of the BGR codes 46 to 49). *)
Definition COLOR_BAYER_BG2RGB : Z := 48.
Definition COLOR_BAYER_RG2RGB : Z := 46.
Definition COLOR_BAYER_GB2RGB : Z := 49.
Definition COLOR_BAYER_GR2RGB : Z := 47.

Definition pattern_map : list (string * Z) :=
  [ ("RGGB"%string, COLOR_BAYER_BG2RGB);
    ("BGGR"%string, COLOR_BAYER_RG2RGB);
    ("GRBG"%string, COLOR_BAYER_GB2RGB);
    ("GBRG"%string, COLOR_BAYER_GR2RGB) ].

(** Dictionary lookup by key; [None] when [key not in d]. *)
Fixpoint dict_get (d : list (string * Z)) (key : string) : option Z :=
  match d with
  | [] => None
  | (k, v) :: rest => if String.eqb key k then Some v else dict_get rest key
  end.

(** What [demosaic_bayer] does besides returning: the messages it prints
    and the calls it makes into OpenCV. *)
Inductive effect :=
| Printed (m : message)
| CvtColorCall (src : ndarray) (code : Z).

Section Demosaic.

(** [cv2.cvtColor(src, code)], the interpolation itself. *)
Variable cvtColor : ndarray -> Z -> ndarray.

(** [demosaic_bayer(self, bayer_image, pattern='RGGB')]: the value
    returned ([None] is Python's [None]) and the effects, in order. *)
Definition demosaic_bayer (bayer_image : ndarray) (pattern : string)
  : option ndarray * list effect :=
  let bayer_8bit := astype (rshift bayer_image 8) uint8 in
  match dict_get pattern_map pattern with
  | None => (None, [Printed (MsgUnknownPattern pattern)])
  | Some code =>
      let rgb_image := cvtColor bayer_8bit code in
      (Some rgb_image, [CvtColorCall bayer_8bit code])
  end.

End Demosaic.

(* ================================================================== *)
(** ** web-bridge/web_bridge.py *)
(* ================================================================== *)

Module Bridge.

(** [subprocess.CompletedProcess] with captured text output. *)
Record CompletedProcess := mk_completed {
  returncode : Z;
  stdout : string;
  stderr : string
}.

(** One call of [subprocess.run]: the command line, the timeout in
    seconds and the working directory. *)
Record invocation := mk_invocation {
  inv_cmd : list string;
  inv_timeout : Z;
  inv_cwd : string
}.

(** How [subprocess.run] ends: the process exits and its output is
    returned as text, the timeout expires ([subprocess.TimeoutExpired]), or
    any other exception is raised (the executable cannot be started, its
    output cannot be decoded as text); [e] is [str(e)]. *)
Inductive run_result :=
| Completed (result : CompletedProcess)
| TimeoutExpired
| OtherException (e : string).

Record HTTPException := mk_http_exception {
  status_code : Z;
  detail : string
}.

(** Values produced by [json.loads]. *)
#[local] Unset Elimination Schemes.
Inductive json :=
| JNull
| JBool (b : bool)
| JInt (z : Z)
| JFloat (repr : string)
| JString (s : string)
| JArray (items : list json)
| JObject (members : list (string * json)).
#[local] Set Elimination Schemes.

(** [d[key] = value] on a Python [dict]: an existing key keeps its
    position, a new key goes last. *)
Fixpoint dict_set (d : list (string * json)) (key : string) (value : json)
  : list (string * json) :=
  match d with
  | [] => [(key, value)]
  | (k, v) :: rest =>
      if String.eqb k key then (k, value) :: rest
      else (k, v) :: dict_set rest key value
  end.

(** What a request gets back: the JSON body, an [HTTPException] turned
    into its status and detail, or an exception that leaves the handler
    uncaught (the server's generic internal error). *)
Inductive reply :=
| Body (response : json)
| Failed (e : HTTPException)
| Uncaught (exception : string).

(** How [json.loads] ends. *)
Inductive loads_result :=
| Parsed (value : json)
| JSONDecodeError
| LoadsRaised (exception : string).

Inductive endpoint :=
| GET_cameras
| POST_capture_all
| GET_camera (camera_id : string)
| POST_camera_capture (camera_id : string).

Section Server.

(** [str(EXECUTABLE_PATH)], [str(CONFIG_PATH)] and [str(DATA_DIR)]:
    they depend on where the script is installed. *)
Variables EXECUTABLE_PATH CONFIG_PATH DATA_DIR : string.

(** The external executable behind [subprocess.run]. *)
Variable subprocess_run : invocation -> run_result.

(** [json.loads]: the value, [json.JSONDecodeError], or another exception
    (such as [RecursionError] on deeply nested input). *)
Variable json_loads : string -> loads_result.

(** [run_camera_command(command_args, timeout=60)]: the result or the
    [HTTPException] raised, and the invocations made. *)
Definition run_camera_command (command_args : list string) (timeout : Z)
  : (HTTPException + CompletedProcess) * list invocation :=
  let cmd := [EXECUTABLE_PATH; "--config"%string; CONFIG_PATH]
               ++ command_args in
  let call := mk_invocation cmd timeout DATA_DIR in
  match subprocess_run call with
  | Completed result => (inr result, [call])
  | TimeoutExpired =>
      (inl (mk_http_exception 408 "Camera operation timed out"), [call])
  | OtherException e =>
      (inl (mk_http_exception 500
              ("Camera operation failed: " ++ e)), [call])
  end.

Definition default_timeout : Z := 60.

(** [@app.get("/api/cameras")]. [response.get] needs a [dict]. *)
Definition list_cameras : reply * list invocation :=
  let (r, calls) :=
    run_camera_command ["--json"; "--list-cameras"]%string
                       default_timeout in
  match r with
  | inl e => (Failed e, calls)
  | inr result =>
      if negb (returncode result =? 0) then
        (Failed (mk_http_exception 500 "Failed to list cameras"), calls)
      else
        match json_loads (stdout result) with
        | JSONDecodeError =>
            (Failed (mk_http_exception 500
                       "Invalid response from camera system"), calls)
        | LoadsRaised exception => (Uncaught exception, calls)
        | Parsed (JObject members) => (Body (JObject members), calls)
        | Parsed _ => (Uncaught "AttributeError", calls)
        end
  end.

Definition system_info : json :=
  JObject
    [ ("executable", JString "refactored_capture.exe");
      ("config", JString "camera_config.json");
      ("data_directory", JString DATA_DIR);
      ("ultra_conservative_mode", JString "enabled");
      ("smart_scheduling", JString "enabled");
      ("max_concurrent_cameras", JInt 2);
      ("dark_image_retry", JString "enabled");
      ("max_retries", JInt 5);
      ("zero_dark_guarantee", JString "enabled") ]%string.

(** [@app.post("/api/cameras/capture-all")]. *)
Definition capture_all_cameras : reply * list invocation :=
  let (r, calls) :=
    run_camera_command ["--json"; "--capture-all"]%string 120 in
  match r with
  | inl e => (Failed e, calls)
  | inr result =>
      if negb (returncode result =? 0) then
        (Failed (mk_http_exception 500 "Capture operation failed"), calls)
      else
        match json_loads (stdout result) with
        | JSONDecodeError =>
            (Failed (mk_http_exception 500
                       "Invalid response from capture operation"), calls)
        | LoadsRaised exception => (Uncaught exception, calls)
        | Parsed (JObject members) =>
            (Body (JObject (dict_set members "system_info" system_info)),
             calls)
        | Parsed _ => (Uncaught "AttributeError", calls)
        end
  end.

(** [@app.get("/api/cameras/{camera_id}")]. *)
Definition get_camera_parameters (camera_id : string)
  : reply * list invocation :=
  let (r, calls) :=
    run_camera_command ["--json"; "--get-params"; camera_id]%string
                       default_timeout in
  match r with
  | inl e => (Failed e, calls)
  | inr result =>
      if negb (returncode result =? 0) then
        (Failed (mk_http_exception 404
                   ("Camera " ++ camera_id ++ " not found")), calls)
      else
        match json_loads (stdout result) with
        | JSONDecodeError =>
            (Failed (mk_http_exception 500
                       "Invalid response from camera system"), calls)
        | LoadsRaised exception => (Uncaught exception, calls)
        | Parsed response => (Body response, calls)
        end
  end.

(** [@app.post("/api/cameras/{camera_id}/capture")]. *)
Definition capture_single_camera (camera_id : string)
  : reply * list invocation :=
  let (r, calls) :=
    run_camera_command
      ["--json"; "--camera"; camera_id; "--capture"]%string 60 in
  match r with
  | inl e => (Failed e, calls)
  | inr result =>
      if negb (returncode result =? 0) then
        (Failed (mk_http_exception 500
                   ("Capture failed for camera " ++ camera_id)), calls)
      else
        match json_loads (stdout result) with
        | JSONDecodeError =>
            (Failed (mk_http_exception 500
                       "Invalid response from capture operation"), calls)
        | LoadsRaised exception => (Uncaught exception, calls)
        | Parsed response => (Body response, calls)
        end
  end.

(** The routes that reach the executable. *)
Definition handle (e : endpoint) : reply * list invocation :=
  match e with
  | GET_cameras => list_cameras
  | POST_capture_all => capture_all_cameras
  | GET_camera camera_id => get_camera_parameters camera_id
  | POST_camera_capture camera_id => capture_single_camera camera_id
  end.

End Server.

(** The tables the properties below are stated against. *)

Definition command_args (e : endpoint) : list string :=
  match e with
  | GET_cameras => ["--json"; "--list-cameras"]
  | POST_capture_all => ["--json"; "--capture-all"]
  | GET_camera camera_id => ["--json"; "--get-params"; camera_id]
  | POST_camera_capture camera_id =>
      ["--json"; "--camera"; camera_id; "--capture"]
  end%string.

Definition timeout_of (e : endpoint) : Z :=
  match e with
  | POST_capture_all => 120
  | _ => 60
  end.

Definition timeout_error : HTTPException :=
  mk_http_exception 408 "Camera operation timed out".

Definition exit_error (e : endpoint) : HTTPException :=
  match e with
  | GET_cameras => mk_http_exception 500 "Failed to list cameras"
  | POST_capture_all => mk_http_exception 500 "Capture operation failed"
  | GET_camera camera_id =>
      mk_http_exception 404 ("Camera " ++ camera_id ++ " not found")
  | POST_camera_capture camera_id =>
      mk_http_exception 500 ("Capture failed for camera " ++ camera_id)
  end%string.

Definition invalid_error (e : endpoint) : HTTPException :=
  match e with
  | GET_cameras | GET_camera _ =>
      mk_http_exception 500 "Invalid response from camera system"
  | POST_capture_all | POST_camera_capture _ =>
      mk_http_exception 500 "Invalid response from capture operation"
  end.

End Bridge.

(* ================================================================== *)
(** ** What read_raw_file computes, in closed form *)
(* ================================================================== *)

Definition raw_samples (order : byteorder) (raw : list byte) (dt : dtype)
  : list Z :=
  match dt with
  | uint8 => map byte_val raw
  | uint16 => words16 order raw
  end.

Definition result_of {A} (r : outcome A * state) : outcome A := fst r.
Definition reader_after {A} (r : outcome A * state) : SaperaRawReader :=
  fst (snd r).
Definition log_after {A} (r : outcome A * state) : list message :=
  snd (snd r).

Definition buffer_size (raw : list byte) : Z := Z.of_nat (List.length raw).

(** The scaling of lines 66-69 as a function on arrays. *)
Definition scale (bits : Z) (dt : dtype) (image : ndarray) : ndarray :=
  if dtype_eqb dt uint8 then lshift (astype image uint16) 8
  else if (bits =? 12) && dtype_eqb dt uint16 then lshift image 4
  else image.

(** The same scaling on one sample. *)
Definition normalize (bits : Z) (dt : dtype) (v : Z) : Z :=
  match dt with
  | uint8 => Z.shiftl (v mod 65536) 8 mod 65536
  | uint16 => if bits =? 12 then Z.shiftl v 4 mod 65536 else v
  end.

Definition returned (o : outcome ndarray) : outcome (option ndarray) :=
  match o with
  | Ret image => Ret (Some image)
  | Raise e => Raise e
  end.

Definition with_bpp (self : SaperaRawReader) (b : Z) : SaperaRawReader :=
  mk_reader (width self) (height self) (bit_depth self) b.

(** The candidates of the fallback in the order the two nested loops
    visit them: sample size outermost, resolution innermost. *)
Definition candidates : list (Z * dtype * string * (Z * Z)) :=
  flat_map (fun f => map (fun wh => (f, wh)) common_resolutions)
           formats_to_try.

(** The test of line 86, with its floor division. *)
Definition floor_match (n : Z) (c : Z * dtype * string * (Z * Z)) : bool :=
  let '(bpp, _, _, (w, h)) := c in w * h =? n / bpp.

(** The byte length is exactly that of the candidate. *)
Definition exact_match (n : Z) (c : Z * dtype * string * (Z * Z)) : bool :=
  let '(bpp, _, _, (w, h)) := c in n =? w * h * bpp.

(** The [except] clause seen from the caller. *)
Definition caught (o : outcome ndarray) (self : SaperaRawReader)
  (log : list message) : outcome (option ndarray) * state :=
  match o with
  | Ret image => (Ret (Some image), (self, log))
  | Raise e => (Ret None, (self, log ++ [MsgErrorReading e]))
  end.

Section ClosedForm.

Variable native : byteorder.

Definition image_of (bits : Z) (raw : list byte) (dt : dtype) (h w : Z)
  : outcome ndarray :=
  match frombuffer native raw dt with
  | Raise e => Raise e
  | Ret a =>
      match reshape a h w with
      | Raise e => Raise e
      | Ret image =>
          if dtype_eqb dt uint8 && too_big uint16 (arr_shape image) then
            Raise (ValueError "array is too big")
          else Ret (scale bits dt image)
      end
  end.

(** Hints for which the frame can be created: neither negative, and the
    16-bit frame not too big for NumPy. *)
Definition frame_fits (h w : Z) : bool :=
  (0 <=? h) && (0 <=? w) && negb (too_big uint16 [h; w]).

(** The frame of an accepted buffer: [h] rows of [w] samples, 16 bits. *)
Definition frame_of (bits : Z) (raw : list byte) (dt : dtype) (h w : Z)
  : ndarray :=
  mk_ndarray uint16 [h; w]
    (map (normalize bits dt) (raw_samples native raw dt)).

Definition accepted (o : outcome ndarray) : option ndarray :=
  match o with
  | Ret image => Some image
  | Raise _ => None
  end.

(** The value [read_raw_file] returns for a readable file, from the two
    hints, the bit depth and the bytes alone. *)
Definition decoded (w h bits : Z) (raw : list byte) : option ndarray :=
  let n := buffer_size raw in
  if n =? w * h * 2 then accepted (image_of bits raw uint16 h w)
  else if n =? w * h * 1 then accepted (image_of bits raw uint8 h w)
  else
    match find (floor_match n) candidates with
    | Some (_, dt, _, (w', h')) => accepted (image_of bits raw dt h' w')
    | None => None
    end.

(** The reader it leaves behind. *)
Definition updated (self : SaperaRawReader) (raw : list byte)
  : SaperaRawReader :=
  let n := buffer_size raw in
  if n =? width self * height self * 2 then with_bpp self 2
  else if n =? width self * height self * 1 then with_bpp self 1
  else
    match find (floor_match n) candidates with
    | Some (bpp, _, _, (w', h')) => mk_reader w' h' (bit_depth self) bpp
    | None => self
    end.

End ClosedForm.

(** A full quarter-resolution frame of zero bytes, one byte per sample. *)
Definition quarter_frame : list byte := repeat x00 (N.to_nat 773056).

(** The four filter arrangements of the specification. *)
Definition bayer_patterns : list string :=
  [ "RGGB"; "BGGR"; "GRBG"; "GBRG" ]%string.

(* ================================================================== *)
(** ** read_sapera_raw.py: process_raw_file and main *)
(* ================================================================== *)

(** [a.min()] and [a.max()]: [ValueError] on an array without elements. *)
Definition ndarray_min (a : ndarray) : outcome Z :=
  match arr_data a with
  | [] => Raise (ValueError "zero-size array to reduction operation minimum")
  | v :: rest => Ret (fold_left Z.min rest v)
  end.

Definition ndarray_max (a : ndarray) : outcome Z :=
  match arr_data a with
  | [] => Raise (ValueError "zero-size array to reduction operation maximum")
  | v :: rest => Ret (fold_left Z.max rest v)
  end.

(** What [process_raw_file] prints and shows, in order: the messages of
    [read_raw_file], the effects of [demosaic_bayer], its own four
    messages, and the figure with the two images. *)
Inductive pipeline_event :=
| Said (m : message)
| Did (e : effect)
| SaidProcessing (filepath : string)
| SaidLoaded (shape : list Z)
| SaidRange (lo hi : Z)
| SaidCreated (shape : list Z)
| Shown (raw_image rgb_image : ndarray) (filepath : string).

(** [s.replace(old, new)] for a non-empty [old]: the occurrences of [old]
    are found from the left and do not overlap. [skip] counts the
    characters of a found occurrence still to pass over. *)
Fixpoint str_replace_from (skip : nat) (s old new : string) : string :=
  match s with
  | EmptyString => EmptyString
  | String c rest =>
      match skip with
      | S k => str_replace_from k rest old new
      | O =>
          if String.prefix old s then
            (new ++ str_replace_from (String.length old - 1) rest old new)
              %string
          else String c (str_replace_from 0 rest old new)
      end
  end.

Definition str_replace (s old new : string) : string :=
  str_replace_from 0 s old new.


(** The parsed command line of [main]. *)
Record arguments := mk_arguments {
  arg_filepath : string;
  arg_width : Z;
  arg_height : Z;
  arg_bits : Z;
  arg_pattern : string;
  arg_no_display : bool
}.

Definition COLOR_RGB2BGR : Z := 4.

(** What [main] prints and writes besides the pipeline's events. *)
Inductive main_event :=
| Pipeline (e : pipeline_event)
| SaidNotFound (filepath : string)
| SaidProcessed
| Wrote (output_path : string) (image : ndarray)
| SaidSaved (output_path : string).

Section Pipeline.

Variable native : byteorder.

(** [cv2.cvtColor] and [cv2.imwrite]. *)
Variable cvtColor : ndarray -> Z -> ndarray.
Variable imwrite : string -> ndarray -> outcome bool.

(** [process_raw_file(self, filepath, bayer_pattern='RGGB', display=True)].
    [file] is the outcome of opening and reading [filepath]. The method has
    no [try]: what [min] raises leaves it. *)
Definition process_raw_file (self : SaperaRawReader) (filepath : string)
  (file : outcome (list byte)) (bayer_pattern : string) (display : bool)
  : outcome (option ndarray * option ndarray)
    * SaperaRawReader * list pipeline_event :=
  let '(read, (self, log)) := read_raw_file native file (self, []) in
  let events := SaidProcessing filepath :: map Said log in
  match read with
  | Raise e => (Raise e, self, events)
  | Ret None => (Ret (None, None), self, events)
  | Ret (Some raw_image) =>
      let events := events ++ [SaidLoaded (arr_shape raw_image)] in
      match ndarray_min raw_image with
      | Raise e => (Raise e, self, events)
      | Ret lo =>
          match ndarray_max raw_image with
          | Raise e => (Raise e, self, events)
          | Ret hi =>
              let events := events ++ [SaidRange lo hi] in
              let '(rgb, effects) :=
                demosaic_bayer cvtColor raw_image bayer_pattern in
              let events := events ++ map Did effects in
              match rgb with
              | None => (Ret (Some raw_image, None), self, events)
              | Some rgb_image =>
                  let events :=
                    events ++ [SaidCreated (arr_shape rgb_image)] in
                  let events :=
                    if display then
                      events ++ [Shown raw_image rgb_image filepath]
                    else events in
                  (Ret (Some raw_image, Some rgb_image), self, events)
              end
          end
      end
  end.

(** [main()] after [parse_args]. [file_exists] is [os.path.exists] of the
    path and [file] the outcome of reading it. *)
Definition main (args : arguments) (file_exists : bool)
  (file : outcome (list byte)) : outcome unit * list main_event :=
  if negb file_exists then (Ret tt, [SaidNotFound (arg_filepath args)])
  else
    let reader := init (arg_width args) (arg_height args) (arg_bits args) in
    let '(processed, _, events) :=
      process_raw_file reader (arg_filepath args) file (arg_pattern args)
        (negb (arg_no_display args)) in
    let events := map Pipeline events in
    match processed with
    | Raise e => (Raise e, events)
    | Ret (None, _) => (Ret tt, events)
    | Ret (Some raw_img, rgb) =>
        let events := events ++ [SaidProcessed] in
        match rgb with
        | None => (Ret tt, events)
        | Some rgb_img =>
            let output_path :=
              str_replace (arg_filepath args) ".raw" "_rgb.png" in
            let bgr := cvtColor rgb_img COLOR_RGB2BGR in
            let events :=
              events ++ [Pipeline (Did (CvtColorCall rgb_img COLOR_RGB2BGR));
                         Wrote output_path bgr] in
            match imwrite output_path bgr with
            | Raise e => (Raise e, events)
            | Ret _ => (Ret tt, events ++ [SaidSaved output_path])
            end
        end
    end.

End Pipeline.

(** Lookup in a JSON object as a Python [dict]: the first entry of the
    key. *)
Fixpoint json_get (d : list (string * Bridge.json)) (key : string)
  : option Bridge.json :=
  match d with
  | [] => None
  | (k, v) :: rest => if String.eqb k key then Some v else json_get rest key
  end.

(** The byte sizes of the six fallback candidates. *)
Definition candidate_sizes : list Z :=
  map (fun '(bpp, _, _, (w, h)) => w * h * bpp) candidates.

(* ================================================================== *)
(** ** Running the reader *)
(* ================================================================== *)

Section ReaderFacts.

Variable native : byteorder.

Lemma to_image_run raw dt self log :
  to_image native raw dt (self, log) =
  (image_of native (bit_depth self) raw dt (height self) (width self),
   (self, log)).
Proof.
  unfold to_image, image_of, scale, bind, lift, get_self, ret; cbn [fst snd].
  destruct (frombuffer native raw dt) as [a|e]; [|reflexivity].
  destruct (reshape a (height self) (width self)) as [image|e];
    [|reflexivity].
  destruct (dtype_eqb dt uint8); cbn [andb].
  - unfold widened. destruct (too_big uint16 (arr_shape image)); reflexivity.
  - destruct ((bit_depth self =? 12) && dtype_eqb dt uint16); reflexivity.
Qed.

Lemma try_hinted_run raw self log :
  try_hinted native raw (self, log) =
  let n := buffer_size raw in
  let w := width self in
  let h := height self in
  let e16 := MsgExpectedSize "16-bit" (w * h * 2) in
  let e8 := MsgExpectedSize "8-bit" (w * h * 1) in
  if n =? w * h * 2 then
    (returned (image_of native (bit_depth self) raw uint16 h w),
     (with_bpp self 2, log ++ [e16; MsgDetected "16-bit" w h]))
  else if n =? w * h * 1 then
    (returned (image_of native (bit_depth self) raw uint8 h w),
     (with_bpp self 1, log ++ [e16; e8; MsgDetected "8-bit" w h]))
  else (Ret None, (self, log ++ [e16; e8])).
Proof.
  unfold try_hinted, try_hinted_on, formats_to_try, for_return, buffer_size.
  unfold bind, get_self, print_to, set_bytes_per_pixel, ret, with_bpp,
    returned.
  cbn [fst snd width height bit_depth].
  destruct (_ =? width self * height self * 2).
  - cbn [fst snd]. rewrite to_image_run. cbn [width height bit_depth].
    rewrite <- !app_assoc. cbn [app].
    destruct (image_of _ _ _ _ _ _); reflexivity.
  - cbn [fst snd].
    destruct (_ =? width self * height self * 1).
    + cbn [fst snd]. rewrite to_image_run. cbn [width height bit_depth].
      rewrite <- !app_assoc. cbn [app].
      destruct (image_of _ _ _ _ _ _); reflexivity.
    + rewrite <- !app_assoc. cbn [app]. destruct self; reflexivity.
Qed.

Lemma auto_detect_run raw self log :
  auto_detect native raw (self, log) =
  match find (floor_match (buffer_size raw)) candidates with
  | Some (bpp, dt, description, (w, h)) =>
      (returned (image_of native (bit_depth self) raw dt h w),
       (mk_reader w h (bit_depth self) bpp,
        log ++ [MsgAutoDetected w h description]))
  | None => (Ret None, (self, log))
  end.
Proof.
  unfold auto_detect, auto_detect_on, candidates, formats_to_try,
    common_resolutions.
  cbn [flat_map map app find floor_match for_return].
  unfold bind, print_to, set_width_height, set_bytes_per_pixel, ret,
    returned, buffer_size.
  cbn [fst snd width height bit_depth bytes_per_pixel].
  repeat lazymatch goal with
  | |- context [if ?b then _ else _] =>
      destruct b; cbn [fst snd width height bit_depth bytes_per_pixel];
      [ rewrite to_image_run; cbn [width height bit_depth];
        destruct (image_of _ _ _ _ _ _); reflexivity | ]
  end.
  destruct self; reflexivity.
Qed.

(** An exception while opening or reading the file. *)
Lemma read_raw_file_io_error e self log :
  read_raw_file native (Raise e) (self, log) =
  (Ret None, (self, log ++ [MsgErrorReading e])).
Proof. reflexivity. Qed.

(** The whole method on a file that could be read. *)
Lemma read_raw_file_run raw self log :
  read_raw_file native (Ret raw) (self, log) =
  let n := buffer_size raw in
  let w := width self in
  let h := height self in
  let bits := bit_depth self in
  let e16 := MsgExpectedSize "16-bit" (w * h * 2) in
  let e8 := MsgExpectedSize "8-bit" (w * h * 1) in
  if n =? w * h * 2 then
    caught (image_of native bits raw uint16 h w) (with_bpp self 2)
      (log ++ [MsgFileSize n; e16; MsgDetected "16-bit" w h])
  else if n =? w * h * 1 then
    caught (image_of native bits raw uint8 h w) (with_bpp self 1)
      (log ++ [MsgFileSize n; e16; e8; MsgDetected "8-bit" w h])
  else
    match find (floor_match n) candidates with
    | Some (bpp, dt, description, (w', h')) =>
        caught (image_of native bits raw dt h' w')
          (mk_reader w' h' bits bpp)
          (log ++ [MsgFileSize n; e16; e8; MsgNoExactMatch;
                   MsgAutoDetected w' h' description])
    | None =>
        (Ret None,
         (self, log ++ [MsgFileSize n; e16; e8; MsgNoExactMatch;
                        MsgCouldNotDetect]))
    end.
Proof.
  unfold read_raw_file, read_raw_file_on, read_raw_file_body_on, try_except.
  change (try_hinted_on Unicode native) with (try_hinted native).
  change (auto_detect_on Unicode native) with (auto_detect native).
  unfold bind at 1. unfold lift at 1. unfold bind at 1.
  unfold print_to at 1. cbn [fst snd]. unfold bind at 1.
  rewrite try_hinted_run. fold (buffer_size raw). cbv zeta.
  destruct (buffer_size raw =? width self * height self * 2).
  { unfold returned, caught, ret.
    rewrite <- !app_assoc. cbn [app].
    destruct (image_of _ _ _ _ _ _); reflexivity. }
  destruct (buffer_size raw =? width self * height self * 1).
  { unfold returned, caught, ret.
    rewrite <- !app_assoc. cbn [app].
    destruct (image_of _ _ _ _ _ _); reflexivity. }
  unfold bind at 1. unfold print_to at 1. cbn [fst snd]. unfold bind at 1.
  rewrite auto_detect_run.
  destruct (find _ candidates) as [[[[bpp dt] description] [w' h']]|].
  - unfold returned, caught, ret.
    rewrite <- !app_assoc. cbn [app].
    destruct (image_of _ _ _ _ _ _); reflexivity.
  - unfold bind, print_to, ret. cbn [fst snd].
    rewrite <- !app_assoc. reflexivity.
Qed.

End ReaderFacts.

(* ================================================================== *)
(** ** Arrays built from a buffer *)
(* ================================================================== *)

Lemma words16_length order raw :
  List.length (words16 order raw) = Nat.div2 (List.length raw).
Proof.
  revert raw. fix IH 1.
  intros [|b0 [|b1 rest]]; cbn [words16 List.length Nat.div2];
    try reflexivity.
  f_equal. apply IH.
Qed.

Lemma raw_samples_size order raw dt :
  buffer_size raw mod itemsize dt = 0 ->
  Z.of_nat (List.length (raw_samples order raw dt))
  = buffer_size raw / itemsize dt.
Proof.
  unfold buffer_size. destruct dt; cbn [raw_samples itemsize]; intros H.
  - rewrite words16_length, Nat.div2_div, Nat2Z.inj_div. reflexivity.
  - rewrite length_map, Z.div_1_r. reflexivity.
Qed.

Lemma byte_val_range b : 0 <= byte_val b < 256.
Proof.
  unfold byte_val. pose proof (Byte.to_N_bounded b). lia.
Qed.

Lemma scale_frame bits dt h w data :
  scale bits dt (mk_ndarray dt [h; w] data)
  = mk_ndarray uint16 [h; w] (map (normalize bits dt) data).
Proof.
  unfold scale, normalize. destruct dt; cbn [dtype_eqb].
  - rewrite andb_true_r. destruct (bits =? 12).
    + reflexivity.
    + rewrite map_id. reflexivity.
  - unfold lshift, astype. cbn [arr_dtype arr_shape arr_data modulus].
    rewrite map_map. reflexivity.
Qed.

Section ImageFacts.

Variable native : byteorder.

Lemma frombuffer_ok raw dt :
  buffer_size raw mod itemsize dt = 0 ->
  frombuffer native raw dt
  = Ret (mk_ndarray dt [buffer_size raw / itemsize dt]
           (raw_samples native raw dt)).
Proof.
  intros H. unfold frombuffer. fold (buffer_size raw).
  rewrite H. cbn [Z.eqb].
  destruct dt; cbn [itemsize raw_samples]; [reflexivity|].
  rewrite Z.div_1_r. reflexivity.
Qed.

Lemma frame_fits_dimensions h w :
  frame_fits h w = true ->
  0 <= h /\ 0 <= w /\ fits_intp h = true /\ fits_intp w = true
  /\ too_big uint8 [h; w] = false /\ too_big uint16 [h; w] = false.
Proof.
  unfold frame_fits, fits_intp, too_big, counted_bytes, max_intp.
  cbn [fold_left itemsize]. intros H.
  apply andb_prop in H. destruct H as [H Hbig].
  apply andb_prop in H. destruct H as [Hh Hw].
  apply Z.leb_le in Hh, Hw. apply negb_true_iff in Hbig.
  apply Z.ltb_ge in Hbig. revert Hbig.
  destruct (Z.eqb_spec h 0); destruct (Z.eqb_spec w 0); intros Hbig;
    (split; [lia|]); (split; [lia|]);
    (split; [apply andb_true_intro; split; apply Z.leb_le; nia|]);
    (split; [apply andb_true_intro; split; apply Z.leb_le; nia|]);
    split; apply Z.ltb_ge; nia.
Qed.

(** Hints below 2^31 that are not negative are always fine. *)
Lemma frame_fits_small h w :
  0 <= h < 2 ^ 31 -> 0 <= w < 2 ^ 31 -> frame_fits h w = true.
Proof.
  intros Hh Hw. unfold frame_fits, too_big, counted_bytes, max_intp.
  cbn [fold_left itemsize].
  apply andb_true_intro. split.
  - apply andb_true_intro. split; apply Z.leb_le; lia.
  - apply negb_true_iff, Z.ltb_ge.
    change (2 ^ 31) with 2147483648 in Hh, Hw.
    change (2 ^ 63 - 1) with 9223372036854775807.
    destruct (Z.eqb_spec h 0); destruct (Z.eqb_spec w 0); nia.
Qed.

(** A buffer of exactly [h * w] samples, with dimensions that fit, gives
    the frame. *)
Lemma image_of_exact bits raw dt h w :
  buffer_size raw = h * w * itemsize dt -> frame_fits h w = true ->
  image_of native bits raw dt h w = Ret (frame_of native bits raw dt h w).
Proof.
  intros Hn Hfit.
  destruct (frame_fits_dimensions h w Hfit)
    as (Hh & Hw & Hfh & Hfw & Hb8 & Hb16).
  assert (Hmod : buffer_size raw mod itemsize dt = 0)
    by (rewrite Hn; apply Z.mod_mul; destruct dt; discriminate).
  assert (Hdiv : buffer_size raw / itemsize dt = h * w)
    by (rewrite Hn; apply Z.div_mul; destruct dt; discriminate).
  unfold image_of. rewrite (frombuffer_ok _ _ Hmod).
  unfold reshape, size. cbn [arr_data arr_dtype].
  rewrite (raw_samples_size _ _ _ Hmod), Hdiv, Hfh, Hfw. cbn [andb negb].
  destruct (Z.ltb_spec h 0); [lia|]. destruct (Z.ltb_spec w 0); [lia|].
  cbn [andb]. rewrite Z.eqb_refl. unfold new_array.
  destruct dt; [rewrite Hb16 | rewrite Hb8];
    cbn [dtype_eqb andb arr_shape]; rewrite ?Hb16;
    rewrite scale_frame; reflexivity.
Qed.

(** The same buffer with dimensions that do not fit raises. *)
Lemma image_of_unfit bits raw dt h w :
  buffer_size raw = h * w * itemsize dt -> frame_fits h w = false ->
  exists e, image_of native bits raw dt h w = Raise e.
Proof.
  intros Hn Hfit.
  assert (Hmod : buffer_size raw mod itemsize dt = 0)
    by (rewrite Hn; apply Z.mod_mul; destruct dt; discriminate).
  assert (Hdiv : buffer_size raw / itemsize dt = h * w)
    by (rewrite Hn; apply Z.div_mul; destruct dt; discriminate).
  assert (Hpos : 0 <= h * w).
  { rewrite <- Hdiv. apply Z.div_pos; [unfold buffer_size; lia|].
    destruct dt; reflexivity. }
  unfold image_of. rewrite (frombuffer_ok _ _ Hmod).
  unfold reshape, size. cbn [arr_data arr_dtype].
  rewrite (raw_samples_size _ _ _ Hmod), Hdiv.
  destruct (fits_intp h && fits_intp w); cbn [negb];
    [|eexists; reflexivity].
  destruct (Z.ltb_spec h 0); destruct (Z.ltb_spec w 0); cbn [andb];
    try (eexists; reflexivity).
  - assert (w = 0) by nia. subst w. cbn [Z.eqb orb]. eexists; reflexivity.
  - assert (h = 0) by nia. subst h. cbn [Z.eqb orb]. eexists; reflexivity.
  - rewrite Z.eqb_refl. unfold new_array.
    destruct (too_big dt [h; w]) eqn:Hbig; [eexists; reflexivity|].
    cbn [arr_shape].
    destruct dt; cbn [dtype_eqb andb].
    + exfalso. unfold frame_fits in Hfit. rewrite Hbig in Hfit.
      destruct (Z.leb_spec 0 h); [|lia]. destruct (Z.leb_spec 0 w); [|lia].
      discriminate.
    + destruct (too_big uint16 [h; w]) eqn:Hbig16; [eexists; reflexivity|].
      exfalso. unfold frame_fits in Hfit. rewrite Hbig16 in Hfit.
      destruct (Z.leb_spec 0 h); [|lia]. destruct (Z.leb_spec 0 w); [|lia].
      discriminate.
Qed.

(** The same buffer with a negative dimension makes [reshape] raise. *)
Lemma image_of_negative bits raw dt h w :
  buffer_size raw = h * w * itemsize dt -> h < 0 \/ w < 0 ->
  exists e, image_of native bits raw dt h w = Raise e.
Proof.
  intros Hn Hneg. apply image_of_unfit; [exact Hn|].
  unfold frame_fits.
  destruct (Z.leb_spec 0 h); destruct (Z.leb_spec 0 w); try reflexivity.
  lia.
Qed.

(** An odd number of bytes cannot be read as 16-bit samples. *)
Lemma image_of_odd bits raw h w :
  buffer_size raw mod 2 = 1 ->
  exists e, image_of native bits raw uint16 h w = Raise e.
Proof.
  intros H. unfold image_of, frombuffer. fold (buffer_size raw).
  cbn [itemsize]. rewrite H. cbn [Z.eqb]. eexists; reflexivity.
Qed.

(** When the byte length fits, success means sensible dimensions and the
    frame. *)
Lemma image_of_inv bits raw dt h w image :
  buffer_size raw = h * w * itemsize dt ->
  image_of native bits raw dt h w = Ret image ->
  0 <= h /\ 0 <= w /\ image = frame_of native bits raw dt h w.
Proof.
  intros Hn Himg.
  destruct (frame_fits h w) eqn:Hfit.
  - rewrite (image_of_exact bits raw dt h w Hn Hfit) in Himg.
    injection Himg as <-.
    destruct (frame_fits_dimensions h w Hfit) as (Hh & Hw & _). auto.
  - destruct (image_of_unfit bits raw dt h w Hn Hfit) as [e He].
    congruence.
Qed.

End ImageFacts.

(* ================================================================== *)
(** ** Format detection *)
(* ================================================================== *)

Section Detection.

Variable native : byteorder.

(** Parity of the byte length, as linear facts for [lia]. *)
Lemma halves n : 0 <= n ->
  exists d m, n = 2 * d + m /\ n / 2 = d /\ n mod 2 = m /\ (m = 0 \/ m = 1).
Proof.
  intros Hn. exists (n / 2), (n mod 2).
  pose proof (Z.div_mod n 2 ltac:(lia)).
  pose proof (Z.mod_pos_bound n 2 ltac:(lia)). lia.
Qed.

Lemma buffer_size_nonneg raw : 0 <= buffer_size raw.
Proof. unfold buffer_size. lia. Qed.

(** C1. When the byte length matches neither hinted size, the reader
    goes through the fixed candidates (4112x3008, 2056x1504, 1028x752,
    at two bytes per sample and then at one) and returns the frame of
    the first one, in that order, whose size is exactly the byte length,
    recording its width, height and sample size; when there is none it
    returns [None]. *)
Theorem fallback_first_exact_candidate self log raw :
  let n := buffer_size raw in
  let out := read_raw_file native (Ret raw) (self, log) in
  n <> width self * height self * 2 ->
  n <> width self * height self * 1 ->
  match find (exact_match n) candidates with
  | Some (bpp, dt, _, (w, h)) =>
      result_of out
      = Ret (Some (frame_of native (bit_depth self) raw dt h w))
      /\ reader_after out = mk_reader w h (bit_depth self) bpp
  | None => result_of out = Ret None
  end.
Proof.
  intros n out H2 H1. subst out. rewrite read_raw_file_run. cbv zeta.
  fold n.
  destruct (Z.eqb_spec n (width self * height self * 2)); [contradiction|].
  destruct (Z.eqb_spec n (width self * height self * 1)); [contradiction|].
  destruct (halves n (buffer_size_nonneg raw)) as (d & m & Hn & Hd & Hm & Hm01).
  unfold candidates, formats_to_try, common_resolutions.
  cbn [flat_map map app find floor_match exact_match].
  rewrite Hd, Z.div_1_r.
  repeat match goal with
  | |- context [Z.eqb ?a ?b] => destruct (Z.eqb_spec a b); try lia
  end;
  unfold result_of, reader_after;
  first
    [ rewrite image_of_exact
        by (first [reflexivity | cbn [itemsize]; fold n; lia]);
      cbn; split; reflexivity
    | match goal with
      | |- context [image_of native ?b raw uint16 ?h ?w] =>
          let x := fresh "x" in
          let Hx := fresh "Hx" in
          destruct (image_of_odd native b raw h w) as [x Hx];
          [fold n; rewrite Hm; lia | rewrite Hx; reflexivity]
      end
    | reflexivity ].
Qed.

Lemma read_raw_file_result self log raw :
  result_of (read_raw_file native (Ret raw) (self, log))
  = Ret (decoded native (width self) (height self) (bit_depth self) raw).
Proof.
  rewrite read_raw_file_run. unfold decoded. cbv zeta.
  destruct (_ =? width self * height self * 2).
  { destruct (image_of _ _ _ _ _ _); reflexivity. }
  destruct (_ =? width self * height self * 1).
  { destruct (image_of _ _ _ _ _ _); reflexivity. }
  destruct (find _ candidates) as [[[[bpp dt] description] [w' h']]|];
    [|reflexivity].
  destruct (image_of _ _ _ _ _ _); reflexivity.
Qed.

Lemma read_raw_file_reader self log raw :
  reader_after (read_raw_file native (Ret raw) (self, log))
  = updated self raw.
Proof.
  rewrite read_raw_file_run. unfold updated. cbv zeta.
  destruct (_ =? width self * height self * 2).
  { destruct (image_of _ _ _ _ _ _); reflexivity. }
  destruct (_ =? width self * height self * 1).
  { destruct (image_of _ _ _ _ _ _); reflexivity. }
  destruct (find _ candidates) as [[[[bpp dt] description] [w' h']]|];
    [|reflexivity].
  destruct (image_of _ _ _ _ _ _); reflexivity.
Qed.

(** What a candidate found by the floor test looks like: one of the six,
    whose size is the byte length up to one odd byte. *)
Lemma floor_match_found n bpp dt description w h :
  0 <= n ->
  find (floor_match n) candidates = Some (bpp, dt, description, (w, h)) ->
  bpp = itemsize dt
  /\ In (w, h) common_resolutions
  /\ (n = h * w * itemsize dt \/ (dt = uint16 /\ n mod 2 = 1)).
Proof.
  intros Hn0.
  destruct (halves n Hn0) as (d & m & Hn & Hd & Hm & Hm01).
  unfold candidates, formats_to_try, common_resolutions.
  cbn [flat_map map app find floor_match].
  rewrite Hd, Z.div_1_r.
  repeat match goal with
  | |- context [Z.eqb ?a ?b] => destruct (Z.eqb_spec a b)
  end;
  intros Hc; try discriminate; injection Hc as <- <- <- <- <-;
  cbn [itemsize In];
  (split; [reflexivity|]);
  (split; [tauto|]);
  try (left; lia);
  (destruct Hm01 as [->| ->]; [left; lia | right; split; [reflexivity|lia]]).
Qed.

End Detection.

(* ================================================================== *)
(** ** The hinted size *)
(* ================================================================== *)

Section Hinted.

Variable native : byteorder.

(** C2. The hinted width and height are tried first, at two bytes per
    sample and then at one. For hints that are not negative and are below
    2^31, a byte length equal to [w*h*2] gives the 16-bit frame, and
    otherwise a byte length equal to [w*h] gives the 8-bit frame. For any
    hints, a length equal to neither, however close, leaves both hinted
    formats and goes on to the fallback, and a frame that carries the
    message of a hinted format has exactly one of the two lengths. The
    log shows the order of the tests. *)
Theorem hinted_size_tried_first self log raw :
  let n := buffer_size raw in
  let w := width self in
  let h := height self in
  let bits := bit_depth self in
  let e16 := MsgExpectedSize "16-bit" (w * h * 2) in
  let e8 := MsgExpectedSize "8-bit" (w * h * 1) in
  let out := read_raw_file native (Ret raw) (self, log) in
  (n = w * h * 2 -> 0 <= w < 2 ^ 31 -> 0 <= h < 2 ^ 31 ->
     result_of out = Ret (Some (frame_of native bits raw uint16 h w))
     /\ reader_after out = with_bpp self 2
     /\ log_after out
        = log ++ [MsgFileSize n; e16; MsgDetected "16-bit" w h])
  /\ (n <> w * h * 2 -> n = w * h * 1 ->
      0 <= w < 2 ^ 31 -> 0 <= h < 2 ^ 31 ->
     result_of out = Ret (Some (frame_of native bits raw uint8 h w))
     /\ reader_after out = with_bpp self 1
     /\ log_after out
        = log ++ [MsgFileSize n; e16; e8; MsgDetected "8-bit" w h])
  /\ (n <> w * h * 2 -> n <> w * h * 1 ->
     exists rest,
       log_after out
       = log ++ [MsgFileSize n; e16; e8; MsgNoExactMatch] ++ rest
       /\ forall d w' h', ~ In (MsgDetected d w' h') rest)
  /\ (forall d w' h',
        In (MsgDetected d w' h') (skipn (List.length log) (log_after out)) ->
        n = w * h * 2 \/ n = w * h * 1).
Proof.
  intros n w h bits e16 e8 out. subst out.
  rewrite read_raw_file_run. cbv zeta.
  fold n w h bits e16 e8.
  assert (Hskip : forall rest : list message,
            skipn (List.length log) (log ++ rest) = rest).
  { intros rest. rewrite skipn_app, skipn_all, Nat.sub_diag. reflexivity. }
  split; [|split; [|split]].
  - intros Hn Hw Hh.
    destruct (Z.eqb_spec n (w * h * 2)); [|contradiction].
    rewrite image_of_exact
      by (first [apply frame_fits_small; assumption
                | cbn [itemsize]; fold n; lia]).
    repeat split.
  - intros Hn2 Hn Hw Hh.
    destruct (Z.eqb_spec n (w * h * 2)); [contradiction|].
    destruct (Z.eqb_spec n (w * h * 1)); [|contradiction].
    rewrite image_of_exact
      by (first [apply frame_fits_small; assumption
                | cbn [itemsize]; fold n; lia]).
    repeat split.
  - intros Hn2 Hn1.
    destruct (Z.eqb_spec n (w * h * 2)); [contradiction|].
    destruct (Z.eqb_spec n (w * h * 1)); [contradiction|].
    destruct (find _ candidates) as [[[[bpp dt] description] [w' h']]|].
    + destruct (image_of native bits raw dt h' w') as [image|e].
      * exists [MsgAutoDetected w' h' description]. split; [reflexivity|].
        intros d w0 h0 [Hin|[]]. discriminate.
      * exists [MsgAutoDetected w' h' description; MsgErrorReading e].
        unfold caught, log_after. cbn [fst snd].
        rewrite <- app_assoc. split; [reflexivity|].
        intros d w0 h0 [Hin|[Hin|[]]]; discriminate.
    + exists [MsgCouldNotDetect]. split; [reflexivity|].
      intros d w0 h0 [Hin|[]]. discriminate.
  - intros d w0 h0.
    destruct (Z.eqb_spec n (w * h * 2)); [tauto|].
    destruct (Z.eqb_spec n (w * h * 1)); [tauto|].
    intros Hin. exfalso.
    destruct (find _ candidates) as [[[[bpp dt] description] [w' h']]|].
    + destruct (image_of native bits raw dt h' w') as [image|e];
        unfold caught, log_after in Hin; cbn [fst snd] in Hin;
        rewrite <- ?app_assoc in Hin; rewrite Hskip in Hin;
        cbn [app In] in Hin; intuition discriminate.
    + unfold log_after in Hin. cbn [fst snd] in Hin.
      rewrite Hskip in Hin. cbn [In] in Hin. intuition discriminate.
Qed.

(** C6, as the code has it. A buffer one byte short of the hinted 16-bit
    size is refused unless the hint is a single pixel (then that one
    byte is the 8-bit frame), and an empty buffer is refused unless the
    hinted size is itself zero; the refusal is [None], never a partial
    frame. *)
Theorem short_or_empty_buffer_refused self log raw :
  let n := buffer_size raw in
  let w := width self in
  let h := height self in
  let out := read_raw_file native (Ret raw) (self, log) in
  (w * h <> 1 -> n = w * h * 2 - 1 -> result_of out = Ret None)
  /\ (w * h <> 0 -> raw = [] -> result_of out = Ret None).
Proof.
  intros n w h out. subst out. rewrite read_raw_file_result.
  unfold decoded. fold n w h. split.
  - intros Hk Hn.
    destruct (Z.eqb_spec n (w * h * 2)); [lia|].
    destruct (Z.eqb_spec n (w * h * 1)); [lia|].
    destruct (find _ candidates) as [[[[bpp dt] description] [w' h']]|] eqn:Hf;
      [|reflexivity].
    apply floor_match_found in Hf; [|apply buffer_size_nonneg].
    destruct Hf as (Hb & Hin & Hsz).
    destruct Hsz as [Hex|[-> Hodd]].
    + exfalso. fold n in Hex.
      cbn [common_resolutions In] in Hin.
      destruct Hin as [Hc|[Hc|[Hc|[]]]]; injection Hc as <- <-;
        destruct dt; cbn [itemsize] in Hex; lia.
    + destruct (image_of_odd native (bit_depth self) raw h' w' Hodd)
        as [e ->].
      reflexivity.
  - intros Hk ->. subst n. cbn [buffer_size List.length Z.of_nat].
    destruct (Z.eqb_spec 0 (w * h * 2)); [lia|].
    destruct (Z.eqb_spec 0 (w * h * 1)); [lia|].
    reflexivity.
Qed.

End Hinted.

(* ================================================================== *)
(** ** The reader across calls, and failures *)
(* ================================================================== *)

Section Calls.

Variable native : byteorder.

Lemma decoded_again self raw :
  let self' := updated self raw in
  decoded native (width self') (height self') (bit_depth self') raw
  = decoded native (width self) (height self) (bit_depth self) raw.
Proof.
  cbv zeta. unfold updated.
  destruct (buffer_size raw =? width self * height self * 2) eqn:E2;
    [reflexivity|].
  destruct (buffer_size raw =? width self * height self * 1) eqn:E1;
    [reflexivity|].
  destruct (find (floor_match (buffer_size raw)) candidates)
    as [[[[bpp dt] description] [w' h']]|] eqn:Hf; [|reflexivity].
  cbn [width height bit_depth].
  unfold decoded at 2. rewrite E2, E1, Hf.
  pose proof Hf as Hc.
  apply floor_match_found in Hc; [|apply buffer_size_nonneg].
  destruct Hc as (Hb & Hin & Hsz).
  unfold decoded.
  cbn [common_resolutions In] in Hin.
  destruct Hsz as [Hex|[-> Hodd]].
  - destruct dt; cbn [itemsize] in Hex.
    + destruct (Z.eqb_spec (buffer_size raw) (w' * h' * 2)); [reflexivity|].
      lia.
    + destruct (Z.eqb_spec (buffer_size raw) (w' * h' * 2)).
      { exfalso.
        destruct Hin as [Hc|[Hc|[Hc|[]]]]; injection Hc as <- <-; lia. }
      destruct (Z.eqb_spec (buffer_size raw) (w' * h' * 1)); [reflexivity|].
      lia.
  - pose proof (halves _ (buffer_size_nonneg raw))
      as (d & m & Hn & Hd & Hm & Hm01).
    destruct (Z.eqb_spec (buffer_size raw) (w' * h' * 2)); [lia|].
    destruct (Z.eqb_spec (buffer_size raw) (w' * h' * 1)).
    { exfalso. revert Hf.
      unfold candidates, formats_to_try, common_resolutions.
      cbn [flat_map map app find floor_match]. rewrite Hd.
      destruct Hin as [Hc|[Hc|[Hc|[]]]]; injection Hc as <- <-;
        repeat match goal with
        | |- context [Z.eqb ?a ?b] => destruct (Z.eqb_spec a b); try lia
        end; discriminate. }
    rewrite Hf. reflexivity.
Qed.

(** C3, as the code has it. The value returned depends only on the
    file, the two hints and the bit depth (not on [bytes_per_pixel], nor
    on what was printed before); a call never changes the bit depth
    (it does record the sample size and, in the fallback, the detected
    width and height); and calling again on the reader the first call
    left behind returns the same value, as a fresh reader would. *)
Theorem same_result_on_reused_reader file self log :
  let first := read_raw_file native file (self, log) in
  let second := read_raw_file native file (snd first) in
  bit_depth (reader_after first) = bit_depth self
  /\ result_of second = result_of first
  /\ (forall fresh log',
        width fresh = width self -> height fresh = height self ->
        bit_depth fresh = bit_depth self ->
        result_of (read_raw_file native file (fresh, log'))
        = result_of first).
Proof.
  cbv zeta. destruct file as [raw|e].
  - split; [|split].
    + rewrite read_raw_file_reader. unfold updated.
      destruct (_ =? width self * height self * 2); [reflexivity|].
      destruct (_ =? width self * height self * 1); [reflexivity|].
      destruct (find _ candidates) as [[[[bpp dt] description] [w' h']]|];
        reflexivity.
    + destruct (read_raw_file native (Ret raw) (self, log))
        as [o [self' log']] eqn:Hfirst.
      cbn [snd]. rewrite read_raw_file_result.
      assert (Hr : self' = updated self raw).
      { rewrite <- (read_raw_file_reader native self log raw), Hfirst.
        reflexivity. }
      assert (Ho : o = Ret (decoded native (width self) (height self)
                              (bit_depth self) raw)).
      { rewrite <- (read_raw_file_result native self log raw), Hfirst.
        reflexivity. }
      rewrite Hr, Ho. unfold result_of. cbn [fst]. f_equal.
      apply decoded_again.
    + intros fresh log' Hw Hh Hb. rewrite !read_raw_file_result.
      rewrite Hw, Hh, Hb. reflexivity.
  - repeat split.
Qed.


(** On a console that can encode every message, [read_raw_file] returns
    whatever the file and the reader: an exception raised while reading
    the file, or anywhere in the body, comes back as [None]. *)
Lemma read_raw_file_never_raises file s :
  exists v,
    result_of (read_raw_file native file s) = Ret v
    /\ (forall e, file = Raise e ->
          v = None /\ reader_after (read_raw_file native file s) = fst s)
    /\ (forall e, result_of (read_raw_file_body native file s) = Raise e ->
          v = None).
Proof.
  unfold read_raw_file, read_raw_file_on, try_except, result_of, reader_after.
  change (read_raw_file_body_on Unicode native file)
    with (read_raw_file_body native file).
  destruct (read_raw_file_body native file s) as [[v|e] s'] eqn:Hbody.
  - exists v. split; [reflexivity|]. split.
    + intros e ->. discriminate.
    + intros e He. discriminate.
  - exists None. split; [reflexivity|]. split.
    + intros e' ->. split; [reflexivity|].
      injection Hbody as _ <-. reflexivity.
    + reflexivity.
Qed.

(** C9, on the code. On a console that cannot encode the symbols of the
    messages, no call of [read_raw_file] returns: every path prints a
    message with a symbol, the [try] catches what that [print] raises, and
    the [print] of the [except] clause raises again and is not caught. In
    particular a file that cannot be read is not reported by [None]. *)
Theorem read_raw_file_raises_on_legacy_console file s :
  result_of (read_raw_file_on Legacy native file s)
  = Raise (ValueError "UnicodeEncodeError")
  /\ result_of (read_raw_file_on Legacy LittleEndian
                  (Raise (OSError "No such file or directory"))
                  (default_reader, []))
     = Raise (ValueError "UnicodeEncodeError").
Proof.
  split; [|reflexivity].
  unfold read_raw_file_on, try_except, result_of.
  assert (Hhandler : forall e s',
            fst ((print_to Legacy (MsgErrorReading e) ;;; ret None) s')
            = Raise (ValueError "UnicodeEncodeError" : exn)
              :> outcome (option ndarray)) by reflexivity.
  assert (Hbody : exists e s',
            read_raw_file_body_on Legacy native file s = (Raise e, s')).
  { destruct file as [raw|e]; [|eexists; eexists; reflexivity].
    destruct s as [self log].
    cbv - [Z.eqb Z.mul Z.of_nat List.length app width height to_image].
    destruct (Z.of_nat (List.length raw) =? width self * height self * 2);
      [eexists; eexists; reflexivity|].
    destruct (Z.of_nat (List.length raw) =? width self * height self * 1);
      eexists; eexists; reflexivity. }
  destruct Hbody as (e & s' & ->). apply Hhandler.
Qed.

End Calls.

(* ================================================================== *)
(** ** Sample values *)
(* ================================================================== *)

Lemma normalize_8bit bits v :
  0 <= v < 256 -> normalize bits uint8 v = Z.shiftl v 8.
Proof.
  intros Hv. unfold normalize.
  rewrite (Z.mod_small v 65536) by lia.
  rewrite Z.shiftl_mul_pow2 by lia.
  apply Z.mod_small. change (2 ^ 8) with 256. lia.
Qed.

Lemma normalize_12bit v :
  0 <= v < 4096 -> normalize 12 uint16 v = Z.shiftl v 4.
Proof.
  intros Hv. unfold normalize. cbn [Z.eqb Pos.eqb].
  rewrite Z.shiftl_mul_pow2 by lia.
  apply Z.mod_small. change (2 ^ 4) with 16. lia.
Qed.

Lemma normalize_other_depth bits v :
  bits <> 12 -> normalize bits uint16 v = v.
Proof.
  intros Hb. unfold normalize.
  destruct (Z.eqb_spec bits 12); [contradiction|reflexivity].
Qed.

(** A stored value that needs more than 12 bits loses its high bits. *)
Lemma normalize_12bit_wraps : normalize 12 uint16 4096 = 0.
Proof. reflexivity. Qed.

Lemma truncate_normalize_8bit bits v :
  0 <= v < 256 -> Z.shiftr (normalize bits uint8 v) 8 mod 256 = v.
Proof.
  intros Hv. rewrite normalize_8bit by assumption.
  rewrite Z.shiftr_shiftl_l by lia.
  change (8 - 8) with 0. rewrite Z.shiftl_0_r.
  apply Z.mod_small. assumption.
Qed.

Lemma word16_nonneg order b0 b1 : 0 <= word16 order b0 b1.
Proof.
  pose proof (byte_val_range b0). pose proof (byte_val_range b1).
  destruct order; cbn [word16]; lia.
Qed.

Lemma words16_nonneg order raw : Forall (fun v => 0 <= v) (words16 order raw).
Proof.
  revert raw. fix IH 1.
  intros [|b0 [|b1 rest]]; cbn [words16]; try constructor.
  - apply word16_nonneg.
  - apply IH.
Qed.

Section Samples.

Variable native : byteorder.

(** An accepted frame is the frame of one sample size, with the
    dimensions and the sample size the reader holds afterwards. *)
Lemma read_raw_file_some self log raw image :
  let out := read_raw_file native (Ret raw) (self, log) in
  let self' := reader_after out in
  result_of out = Ret (Some image) ->
  exists dt,
    bytes_per_pixel self' = itemsize dt
    /\ buffer_size raw = height self' * width self' * itemsize dt
    /\ 0 <= height self' /\ 0 <= width self'
    /\ image = frame_of native (bit_depth self) raw dt
                 (height self') (width self').
Proof.
  cbv zeta. rewrite read_raw_file_result, read_raw_file_reader.
  unfold decoded, updated.
  destruct (Z.eqb_spec (buffer_size raw) (width self * height self * 2))
    as [E2|E2].
  { intros H. exists uint16. cbn [with_bpp width height bytes_per_pixel].
    destruct (image_of native (bit_depth self) raw uint16 (height self)
                (width self)) as [i|e] eqn:Hi; [|discriminate].
    injection H as ->.
    apply image_of_inv in Hi; [|cbn [itemsize]; lia].
    cbn [itemsize]. repeat split; try tauto; lia. }
  destruct (Z.eqb_spec (buffer_size raw) (width self * height self * 1))
    as [E1|E1].
  { intros H. exists uint8. cbn [with_bpp width height bytes_per_pixel].
    destruct (image_of native (bit_depth self) raw uint8 (height self)
                (width self)) as [i|e] eqn:Hi; [|discriminate].
    injection H as ->.
    apply image_of_inv in Hi; [|cbn [itemsize]; lia].
    cbn [itemsize]. repeat split; try tauto; lia. }
  destruct (find _ candidates) as [[[[bpp dt] description] [w' h']]|] eqn:Hf;
    [|discriminate].
  apply floor_match_found in Hf; [|apply buffer_size_nonneg].
  destruct Hf as (Hb & Hin & Hsz).
  intros H. exists dt. cbn [width height bytes_per_pixel].
  destruct (image_of native (bit_depth self) raw dt h' w') as [i|e] eqn:Hi;
    [|discriminate].
  injection H as ->.
  destruct Hsz as [Hex|[-> Hodd]].
  - apply image_of_inv in Hi; [|exact Hex]. tauto.
  - destruct (image_of_odd native (bit_depth self) raw h' w' Hodd)
      as [e He].
    congruence.
Qed.

(** C5. In every accepted frame, sample by sample: a sample stored in
    one byte becomes [v << 8]; a sample stored in two bytes becomes
    [(v << 4) mod 2^16] when the reader is set to 12 bits, which is
    [v << 4] for every sample that is a 12-bit value, whatever the other
    samples of the file are; and with any other bit depth (16 in
    particular) a two-byte sample is returned as stored. The values are
    integers, nothing is rounded. *)
Theorem samples_scaled_by_shift self log raw image :
  let out := read_raw_file native (Ret raw) (self, log) in
  result_of out = Ret (Some image) ->
  (bytes_per_pixel (reader_after out) = 1 ->
     arr_data image = map (fun b => Z.shiftl (byte_val b) 8) raw)
  /\ (bytes_per_pixel (reader_after out) = 2 -> bit_depth self = 12 ->
      arr_data image
      = map (fun v => Z.shiftl v 4 mod 65536) (words16 native raw)
      /\ Forall2 (fun v scaled => v < 4096 -> scaled = Z.shiftl v 4)
           (words16 native raw) (arr_data image))
  /\ (bytes_per_pixel (reader_after out) = 2 -> bit_depth self <> 12 ->
      arr_data image = words16 native raw).
Proof.
  intros out Hres.
  destruct (read_raw_file_some self log raw image Hres)
    as (dt & Hbpp & _ & _ & _ & ->).
  fold out in Hbpp. unfold frame_of. cbn [arr_data].
  split; [|split].
  - intros H1. destruct dt; cbn [itemsize] in Hbpp; [lia|].
    cbn [raw_samples]. rewrite map_map. apply map_ext.
    intros b. apply normalize_8bit, byte_val_range.
  - intros H2 H12. destruct dt; cbn [itemsize] in Hbpp; [|lia].
    cbn [raw_samples]. rewrite H12. split; [reflexivity|].
    pose proof (words16_nonneg native raw) as Hpos.
    induction (words16 native raw) as [|v words IH]; cbn [map];
      constructor.
    + intros Hv. apply normalize_12bit.
      inversion Hpos; subst. lia.
    + apply IH. inversion Hpos; subst. assumption.
  - intros H2 Hb. destruct dt; cbn [itemsize] in Hbpp; [|lia].
    cbn [raw_samples]. rewrite <- (map_id (words16 native raw)) at 2.
    apply map_ext. intros v. apply normalize_other_depth, Hb.
Qed.

(** C10. For a buffer accepted at one byte per sample, the array that
    [demosaic_bayer] hands to the interpolation holds the bytes of the
    file, unchanged and in order: the shift by 8 of the reader and the
    shift back of the demosaicer cancel. *)
Theorem demosaic_gets_stored_bytes
    (cvtColor : ndarray -> Z -> ndarray) self log raw image pattern code :
  let out := read_raw_file native (Ret raw) (self, log) in
  result_of out = Ret (Some image) ->
  bytes_per_pixel (reader_after out) = 1 ->
  dict_get pattern_map pattern = Some code ->
  let src :=
    mk_ndarray uint8 [height (reader_after out); width (reader_after out)]
      (map byte_val raw) in
  demosaic_bayer cvtColor image pattern
  = (Some (cvtColor src code), [CvtColorCall src code]).
Proof.
  intros out Hres H1 Hcode src.
  destruct (read_raw_file_some self log raw image Hres)
    as (dt & Hbpp & _ & _ & _ & ->).
  fold out in Hbpp. fold out.
  destruct dt; cbn [itemsize] in Hbpp; [lia|].
  unfold demosaic_bayer. rewrite Hcode.
  assert (Hsrc : astype (rshift (frame_of native (bit_depth self) raw uint8
                   (height (reader_after out)) (width (reader_after out))) 8)
                   uint8 = src).
  { unfold src, frame_of, rshift, astype.
    cbn [arr_dtype arr_shape arr_data raw_samples]. f_equal.
    rewrite !map_map. apply map_ext.
    intros b. apply truncate_normalize_8bit, byte_val_range. }
  rewrite Hsrc. reflexivity.
Qed.

End Samples.

(* ================================================================== *)
(** ** Bayer patterns *)
(* ================================================================== *)

(** C7. A pattern outside the four known ones is refused with [None]: the
    only effect is the message, the interpolation is never called. A known
    pattern makes exactly one interpolation call, on the high bytes of the
    frame, and no two of the four patterns select the same conversion. *)
Theorem unknown_pattern_refused_before_interpolation
    (cvtColor : ndarray -> Z -> ndarray) image pattern :
  (~ In pattern bayer_patterns ->
     demosaic_bayer cvtColor image pattern
     = (None, [Printed (MsgUnknownPattern pattern)]))
  /\ (In pattern bayer_patterns ->
      exists code,
        dict_get pattern_map pattern = Some code
        /\ demosaic_bayer cvtColor image pattern
           = (Some (cvtColor (astype (rshift image 8) uint8) code),
              [CvtColorCall (astype (rshift image 8) uint8) code]))
  /\ (forall other code,
        In pattern bayer_patterns -> In other bayer_patterns ->
        dict_get pattern_map pattern = Some code ->
        dict_get pattern_map other = Some code ->
        pattern = other).
Proof.
  split; [|split].
  - intros Hout. unfold demosaic_bayer, pattern_map, dict_get.
    unfold bayer_patterns in Hout. cbn [In] in Hout.
    repeat match goal with
    | |- context [String.eqb pattern ?k] =>
        destruct (String.eqb_spec pattern k); [exfalso; subst; tauto|]
    end.
    reflexivity.
  - intros Hin. unfold bayer_patterns in Hin. cbn [In] in Hin.
    destruct Hin as [<-|[<-|[<-|[<-|[]]]]];
      eexists; split; reflexivity.
  - intros other code Hp Ho. unfold bayer_patterns in Hp, Ho.
    cbn [In] in Hp, Ho.
    destruct Hp as [<-|[<-|[<-|[<-|[]]]]];
      destruct Ho as [<-|[<-|[<-|[<-|[]]]]];
      vm_compute; intros H1 H2; try reflexivity; congruence.
Qed.

(* ================================================================== *)
(** ** The bridge *)
(* ================================================================== *)

Lemma not_found_is_not_timeout camera_id :
  ("Camera " ++ camera_id ++ " not found")%string
  <> "Camera operation timed out"%string.
Proof.
  cbn [append]. intros H.
  injection H as H.
  repeat (destruct camera_id as [|? camera_id]; cbn [append] in H;
          [discriminate | injection H as _ H]).
  destruct camera_id; discriminate.
Qed.

Section BridgeFacts.

Variables EXECUTABLE_PATH CONFIG_PATH DATA_DIR : string.
Variable subprocess_run : Bridge.invocation -> Bridge.run_result.
Variable json_loads : string -> Bridge.loads_result.

(** C8, as the code has it. Each of the four endpoints calls
    [subprocess.run] once, with a timeout of 120 seconds for capture-all
    and 60 for the others, and synchronously: the reply is formed from the
    outcome of that one call. An expired timeout is answered with 408;
    any other exception of [subprocess.run] (an executable that cannot be
    started, output that cannot be decoded as text, whatever the exit code)
    with 500 and the exception's text; a completed run with an exit code
    other than zero with the endpoint's own message, under status 500, or
    404 for the parameters of one camera; a completed run with exit code
    zero whose output [json.loads] rejects with [JSONDecodeError] with
    status 500 and an invalid-response message. The messages for the
    timeout, the exit code and the invalid response are pairwise
    different. *)
Theorem one_invocation_three_failures (ep : Bridge.endpoint) :
  let call :=
    Bridge.mk_invocation
      ([EXECUTABLE_PATH; "--config"%string; CONFIG_PATH]
         ++ Bridge.command_args ep)
      (Bridge.timeout_of ep) DATA_DIR in
  let out :=
    Bridge.handle EXECUTABLE_PATH CONFIG_PATH DATA_DIR subprocess_run
      json_loads ep in
  snd out = [call]
  /\ (subprocess_run call = Bridge.TimeoutExpired ->
      fst out = Bridge.Failed Bridge.timeout_error)
  /\ (forall e, subprocess_run call = Bridge.OtherException e ->
      fst out
      = Bridge.Failed
          (Bridge.mk_http_exception 500 ("Camera operation failed: " ++ e)))
  /\ (forall r, subprocess_run call = Bridge.Completed r ->
      Bridge.returncode r <> 0 ->
      fst out = Bridge.Failed (Bridge.exit_error ep))
  /\ (forall r, subprocess_run call = Bridge.Completed r ->
      Bridge.returncode r = 0 ->
      json_loads (Bridge.stdout r) = Bridge.JSONDecodeError ->
      fst out = Bridge.Failed (Bridge.invalid_error ep))
  /\ Bridge.status_code Bridge.timeout_error = 408
  /\ Bridge.status_code (Bridge.exit_error ep)
     = match ep with Bridge.GET_camera _ => 404 | _ => 500 end
  /\ Bridge.status_code (Bridge.invalid_error ep) = 500
  /\ Bridge.detail Bridge.timeout_error
     <> Bridge.detail (Bridge.exit_error ep)
  /\ Bridge.detail Bridge.timeout_error
     <> Bridge.detail (Bridge.invalid_error ep)
  /\ Bridge.detail (Bridge.exit_error ep)
     <> Bridge.detail (Bridge.invalid_error ep).
Proof.
  cbv zeta.
  split; [|split; [|split; [|split; [|split]]]].
  - destruct ep; cbn [Bridge.handle Bridge.command_args Bridge.timeout_of];
      unfold Bridge.list_cameras, Bridge.capture_all_cameras,
        Bridge.get_camera_parameters, Bridge.capture_single_camera,
        Bridge.run_camera_command, Bridge.default_timeout;
      destruct (subprocess_run _) as [r| |e]; cbn [snd]; try reflexivity;
      destruct (negb (Bridge.returncode r =? 0)); try reflexivity;
      destruct (json_loads (Bridge.stdout r)) as [[]| |]; reflexivity.
  - intros Hrun.
    destruct ep; cbn [Bridge.handle Bridge.command_args Bridge.timeout_of]
      in *;
      unfold Bridge.list_cameras, Bridge.capture_all_cameras,
        Bridge.get_camera_parameters, Bridge.capture_single_camera,
        Bridge.run_camera_command, Bridge.default_timeout;
      rewrite Hrun; reflexivity.
  - intros e Hrun.
    destruct ep; cbn [Bridge.handle Bridge.command_args Bridge.timeout_of]
      in *;
      unfold Bridge.list_cameras, Bridge.capture_all_cameras,
        Bridge.get_camera_parameters, Bridge.capture_single_camera,
        Bridge.run_camera_command, Bridge.default_timeout;
      rewrite Hrun; reflexivity.
  - intros r Hrun Hcode.
    assert (Hneq : negb (Bridge.returncode r =? 0) = true)
      by (destruct (Z.eqb_spec (Bridge.returncode r) 0);
          [contradiction|reflexivity]).
    destruct ep; cbn [Bridge.handle Bridge.command_args Bridge.timeout_of]
      in *;
      unfold Bridge.list_cameras, Bridge.capture_all_cameras,
        Bridge.get_camera_parameters, Bridge.capture_single_camera,
        Bridge.run_camera_command, Bridge.default_timeout;
      rewrite Hrun, Hneq; reflexivity.
  - intros r Hrun Hcode Hjson.
    assert (Heq : negb (Bridge.returncode r =? 0) = false)
      by (rewrite Hcode; reflexivity).
    destruct ep; cbn [Bridge.handle Bridge.command_args Bridge.timeout_of]
      in *;
      unfold Bridge.list_cameras, Bridge.capture_all_cameras,
        Bridge.get_camera_parameters, Bridge.capture_single_camera,
        Bridge.run_camera_command, Bridge.default_timeout;
      rewrite Hrun, Heq, Hjson; reflexivity.
  - split; [reflexivity|].
    split; [destruct ep; reflexivity|].
    split; [destruct ep; reflexivity|].
    split; [|split].
    + destruct ep; cbn [Bridge.exit_error Bridge.detail Bridge.timeout_error];
        try (cbn [append]; discriminate).
      intros H. symmetry in H. revert H. apply not_found_is_not_timeout.
    + destruct ep; discriminate.
    + destruct ep; cbn [Bridge.exit_error Bridge.invalid_error Bridge.detail];
        cbn [append]; discriminate.
Qed.

End BridgeFacts.

(* ================================================================== *)
(** ** The properties on concrete files *)
(* ================================================================== *)

Lemma quarter_frame_size : buffer_size quarter_frame = 773056.
Proof. vm_compute. reflexivity. Qed.

(** A quarter-resolution file of one byte per sample, read by a reader
    hinted 640x480, is detected by the fallback. *)
Lemma fallback_first_exact_candidate_witness :
  buffer_size quarter_frame <> 640 * 480 * 2
  /\ buffer_size quarter_frame <> 640 * 480 * 1
  /\ result_of (read_raw_file LittleEndian (Ret quarter_frame)
                  (init 640 480 12, []))
     = Ret (Some (frame_of LittleEndian 12 quarter_frame uint8 752 1028))
  /\ reader_after (read_raw_file LittleEndian (Ret quarter_frame)
                     (init 640 480 12, []))
     = mk_reader 1028 752 12 1.
Proof.
  pose proof (fallback_first_exact_candidate LittleEndian (init 640 480 12)
                [] quarter_frame) as H.
  cbv zeta in H. rewrite quarter_frame_size in H.
  split; [rewrite quarter_frame_size; discriminate|].
  split; [rewrite quarter_frame_size; discriminate|].
  apply H; discriminate.
Defined.

(** Four bytes under a 2x1 hint are two 16-bit samples. *)
Lemma hinted_size_tried_first_witness :
  result_of (read_raw_file LittleEndian (Ret [x01; x02; x03; x04])
               (init 2 1 12, []))
  = Ret (Some (mk_ndarray uint16 [1; 2] [8208; 16432]))
  /\ reader_after (read_raw_file LittleEndian (Ret [x01; x02; x03; x04])
                     (init 2 1 12, []))
     = mk_reader 2 1 12 2.
Proof.
  pose proof (hinted_size_tried_first LittleEndian (init 2 1 12) []
                [x01; x02; x03; x04]) as H.
  cbv zeta in H. destruct H as (H16 & _ & _).
  destruct H16 as (Hres & Hreader & _);
    [reflexivity | split; [discriminate | reflexivity]
     | split; [discriminate | reflexivity] |].
  split; [exact Hres | exact Hreader].
Defined.

(** C3, counterexample. One byte under a 1x1 hint changes
    [bytes_per_pixel] from 2 to 1, and the quarter-resolution file changes
    the width and height of a reader hinted 640x480. *)
Lemma reader_changed_by_read :
  reader_after (read_raw_file LittleEndian (Ret [x07]) (init 1 1 12, []))
  <> init 1 1 12
  /\ reader_after (read_raw_file LittleEndian (Ret quarter_frame)
                     (init 640 480 12, []))
     <> init 640 480 12.
Proof.
  split.
  - vm_compute. discriminate.
  - rewrite read_raw_file_reader. unfold updated.
    rewrite quarter_frame_size. vm_compute. discriminate.
Qed.

Lemma same_result_on_reused_reader_witness :
  result_of (read_raw_file LittleEndian (Ret [x07])
               (snd (read_raw_file LittleEndian (Ret [x07])
                       (init 1 1 12, []))))
  = result_of (read_raw_file LittleEndian (Ret [x07]) (init 1 1 12, []))
  /\ result_of (read_raw_file LittleEndian (Ret [x07]) (init 1 1 12, []))
     = Ret (Some (mk_ndarray uint16 [1; 1] [1792])).
Proof.
  pose proof (same_result_on_reused_reader LittleEndian (Ret [x07])
                (init 1 1 12) []) as H.
  cbv zeta in H. destruct H as (_ & Hsame & Hfresh).
  split; [exact Hsame|].
  rewrite <- (Hfresh (mk_reader 1 1 12 1) [MsgNoExactMatch]);
    reflexivity.
Defined.



Lemma samples_scaled_by_shift_witness :
  arr_data (mk_ndarray uint16 [1; 2] [32; 16432])
  = map (fun v => Z.shiftl v 4 mod 65536)
      (words16 LittleEndian [x02; xf0; x03; x04])
  /\ Forall2 (fun v scaled => v < 4096 -> scaled = Z.shiftl v 4)
       (words16 LittleEndian [x02; xf0; x03; x04])
       (arr_data (mk_ndarray uint16 [1; 2] [32; 16432])).
Proof.
  pose proof (samples_scaled_by_shift LittleEndian (init 2 1 12) []
                [x02; xf0; x03; x04]
                (mk_ndarray uint16 [1; 2] [32; 16432])) as H.
  cbv zeta in H. destruct H as (_ & H12 & _); [reflexivity|].
  apply H12; reflexivity.
Defined.

(** C6, counterexample. Under a 1x1 hint the buffer one byte short of the
    16-bit size is a single byte, and it is accepted as the 8-bit frame. *)
Lemma one_byte_short_accepted :
  buffer_size [x07] = 1 * 1 * 2 - 1
  /\ result_of (read_raw_file LittleEndian (Ret [x07]) (init 1 1 12, []))
     = Ret (Some (mk_ndarray uint16 [1; 1] [1792]))
  /\ result_of (read_raw_file LittleEndian (Ret [x07]) (init 1 1 12, []))
     <> Ret None.
Proof. repeat split. discriminate. Qed.

Lemma short_or_empty_buffer_refused_witness :
  result_of (read_raw_file LittleEndian
               (Ret [x01; x02; x03; x04; x05; x06; x07]) (init 2 2 12, []))
  = Ret None
  /\ result_of (read_raw_file LittleEndian (Ret []) (init 2 2 12, []))
     = Ret None.
Proof.
  split.
  - pose proof (short_or_empty_buffer_refused LittleEndian (init 2 2 12) []
                  [x01; x02; x03; x04; x05; x06; x07]) as H.
    cbv zeta in H. destruct H as (Hshort & _).
    apply Hshort; [discriminate | reflexivity].
  - pose proof (short_or_empty_buffer_refused LittleEndian (init 2 2 12) []
                  []) as H.
    cbv zeta in H. destruct H as (_ & Hempty).
    apply Hempty; [discriminate | reflexivity].
Defined.

Lemma demosaic_gets_stored_bytes_witness :
  demosaic_bayer (fun src _ => src) (mk_ndarray uint16 [1; 2] [2560; 65280])
    "RGGB"
  = (Some (mk_ndarray uint8 [1; 2] [10; 255]),
     [CvtColorCall (mk_ndarray uint8 [1; 2] [10; 255]) 48]).
Proof.
  pose proof (demosaic_gets_stored_bytes LittleEndian (fun src _ => src)
                (init 2 1 12) [] [x0a; xff]
                (mk_ndarray uint16 [1; 2] [2560; 65280]) "RGGB" 48) as H.
  cbv zeta in H. apply H; reflexivity.
Defined.

Lemma unknown_pattern_refused_before_interpolation_witness :
  demosaic_bayer (fun src _ => src) (mk_ndarray uint16 [1; 1] [1792]) "XYZZY"
  = (None, [Printed (MsgUnknownPattern "XYZZY")]).
Proof.
  apply (proj1 (unknown_pattern_refused_before_interpolation
                  (fun src _ => src) (mk_ndarray uint16 [1; 1] [1792])
                  "XYZZY")).
  cbn [bayer_patterns In]. intros [H|[H|[H|[H|[]]]]]; discriminate.
Defined.

(** C8, counterexample. When the executable exits with code 1, the
    endpoint for one camera's parameters answers 404, not 500. *)
Lemma get_camera_exit_code_is_404 :
  fst (Bridge.handle "capture.exe" "config.json" "data"
         (fun _ => Bridge.Completed (Bridge.mk_completed 1 "" "no camera"))
         (fun _ => Bridge.JSONDecodeError) (Bridge.GET_camera "7"))
  = Bridge.Failed (Bridge.mk_http_exception 404 "Camera 7 not found")
  /\ ~ (exists d,
          fst (Bridge.handle "capture.exe" "config.json" "data"
                 (fun _ => Bridge.Completed
                             (Bridge.mk_completed 1 "" "no camera"))
                 (fun _ => Bridge.JSONDecodeError) (Bridge.GET_camera "7"))
          = Bridge.Failed (Bridge.mk_http_exception 500 d)).
Proof.
  split; [reflexivity|]. intros [d H]. vm_compute in H. discriminate.
Qed.

Lemma one_invocation_three_failures_witness :
  Bridge.handle "capture.exe" "config.json" "data"
    (fun _ => Bridge.TimeoutExpired) (fun _ => Bridge.JSONDecodeError)
    Bridge.POST_capture_all
  = (Bridge.Failed (Bridge.mk_http_exception 408 "Camera operation timed out"),
     [Bridge.mk_invocation
        ["capture.exe"; "--config"; "config.json"; "--json"; "--capture-all"]
        120 "data"])%string.
Proof.
  pose proof (one_invocation_three_failures "capture.exe" "config.json"
                "data" (fun _ => Bridge.TimeoutExpired)
                (fun _ => Bridge.JSONDecodeError)
                Bridge.POST_capture_all) as H.
  cbv zeta in H. destruct H as (Hcalls & Htimeout & _).
  specialize (Htimeout eq_refl).
  destruct (Bridge.handle _ _ _ _ _ _) as [r calls].
  cbn [fst snd] in *. rewrite Hcalls, Htimeout. reflexivity.
Defined.

(* ================================================================== *)
(** ** Which files are accepted, and what the frame looks like *)
(* ================================================================== *)

Lemma word16_range order b0 b1 : 0 <= word16 order b0 b1 < 65536.
Proof.
  pose proof (byte_val_range b0). pose proof (byte_val_range b1).
  destruct order; cbn [word16]; lia.
Qed.

Lemma words16_range order raw :
  Forall (fun v => 0 <= v < 65536) (words16 order raw).
Proof.
  revert raw. fix IH 1.
  intros [|b0 [|b1 rest]]; cbn [words16]; try constructor.
  - apply word16_range.
  - apply IH.
Qed.

Lemma normalize_range bits dt v :
  0 <= v < 65536 -> 0 <= normalize bits dt v < 65536.
Proof.
  intros Hv. unfold normalize. destruct dt.
  - destruct (bits =? 12); [apply Z.mod_pos_bound; lia | exact Hv].
  - apply Z.mod_pos_bound. lia.
Qed.

Lemma raw_samples_range order raw dt :
  Forall (fun v => 0 <= v < 65536) (raw_samples order raw dt).
Proof.
  destruct dt; cbn [raw_samples]; [apply words16_range|].
  apply Forall_forall. intros v Hv. apply in_map_iff in Hv.
  destruct Hv as (b & <- & _). pose proof (byte_val_range b). lia.
Qed.

Lemma candidate_found n :
  In n candidate_sizes ->
  exists bpp dt description w h,
    find (floor_match n) candidates = Some (bpp, dt, description, (w, h))
    /\ n = h * w * itemsize dt /\ frame_fits h w = true.
Proof.
  unfold candidate_sizes, candidates, formats_to_try, common_resolutions.
  cbn [flat_map map app In].
  intros [H|[H|[H|[H|[H|[H|[]]]]]]]; subst n; vm_compute;
    do 5 eexists; (split; [reflexivity|]); split; reflexivity.
Qed.

Section Accepted.

Variable native : byteorder.

(** X1. For hints below 2^31, a readable file gives a frame in exactly
    two cases: its length is the hinted width times height, times 2 or
    times 1, and neither hint is negative; or its length is neither of
    these and is one of the six candidate sizes. *)
Theorem accepted_exactly_when self log raw :
  let n := buffer_size raw in
  let w := width self in
  let h := height self in
  w < 2 ^ 31 -> h < 2 ^ 31 ->
  (exists image,
     result_of (read_raw_file native (Ret raw) (self, log))
     = Ret (Some image))
  <-> ((n = w * h * 2 \/ n = w * h * 1) /\ 0 <= w /\ 0 <= h)
      \/ (n <> w * h * 2 /\ n <> w * h * 1 /\ In n candidate_sizes).
Proof.
  intros n w h Hwmax Hhmax. rewrite read_raw_file_result. unfold decoded.
  fold n w h. split.
  - intros [image Himg].
    destruct (Z.eqb_spec n (w * h * 2)) as [E2|E2].
    { left. destruct (image_of native (bit_depth self) raw uint16 h w)
        as [i|e] eqn:Hi; [|discriminate].
      apply image_of_inv in Hi; [|cbn [itemsize]; fold n; lia]. tauto. }
    destruct (Z.eqb_spec n (w * h * 1)) as [E1|E1].
    { left. destruct (image_of native (bit_depth self) raw uint8 h w)
        as [i|e] eqn:Hi; [|discriminate].
      apply image_of_inv in Hi; [|cbn [itemsize]; fold n; lia]. tauto. }
    right. split; [exact E2|]. split; [exact E1|].
    destruct (find _ candidates) as [[[[bpp dt] description] [w' h']]|] eqn:Hf;
      [|discriminate].
    apply floor_match_found in Hf; [|apply buffer_size_nonneg].
    destruct Hf as (Hb & Hin & [Hex|[-> Hodd]]).
    + fold n in Hex. rewrite Hex.
      unfold candidate_sizes, candidates, formats_to_try, common_resolutions.
      cbn [flat_map map app In common_resolutions] in *.
      destruct Hin as [Hc|[Hc|[Hc|[]]]]; injection Hc as <- <-;
        destruct dt; cbn [itemsize]; tauto.
    + destruct (image_of_odd native (bit_depth self) raw h' w' Hodd)
        as [e He].
      rewrite He in Himg. discriminate.
  - intros [[Hn [Hw Hh]]|(E2 & E1 & Hin)].
    + assert (Hfit : frame_fits h w = true)
        by (apply frame_fits_small; lia).
      destruct (Z.eqb_spec n (w * h * 2)) as [E2|E2].
      { rewrite image_of_exact
          by (first [exact Hfit | cbn [itemsize]; fold n; lia]).
        eexists; reflexivity. }
      destruct (Z.eqb_spec n (w * h * 1)) as [E1|E1]; [|lia].
      rewrite image_of_exact
        by (first [exact Hfit | cbn [itemsize]; fold n; lia]).
      eexists; reflexivity.
    + destruct (Z.eqb_spec n (w * h * 2)); [contradiction|].
      destruct (Z.eqb_spec n (w * h * 1)); [contradiction|].
      destruct (candidate_found n Hin)
        as (bpp & dt & description & w' & h' & Hf & Hex & Hfit).
      rewrite Hf. rewrite image_of_exact by assumption.
      eexists; reflexivity.
Qed.

(** X2. Every frame returned has 16-bit unsigned samples, the shape
    (height, width) of the reader after the call, exactly height times
    width samples, and every sample between 0 and 65535. *)
Theorem frame_well_formed self log raw image :
  let out := read_raw_file native (Ret raw) (self, log) in
  let h := height (reader_after out) in
  let w := width (reader_after out) in
  result_of out = Ret (Some image) ->
  arr_dtype image = uint16
  /\ arr_shape image = [h; w]
  /\ Z.of_nat (List.length (arr_data image)) = h * w
  /\ Forall (fun v => 0 <= v < 65536) (arr_data image).
Proof.
  intros out h w Hres.
  destruct (read_raw_file_some native self log raw image Hres)
    as (dt & _ & Hsize & _ & _ & ->).
  fold out in Hsize. fold h w in Hsize. fold out. fold h w.
  unfold frame_of. cbn [arr_dtype arr_shape arr_data].
  split; [reflexivity|]. split; [reflexivity|]. split.
  - rewrite length_map, raw_samples_size.
    + rewrite Hsize. apply Z.div_mul. destruct dt; discriminate.
    + rewrite Hsize. apply Z.mod_mul. destruct dt; discriminate.
  - apply Forall_forall. intros v Hv. apply in_map_iff in Hv.
    destruct Hv as (u & <- & Hu). apply normalize_range.
    pose proof (raw_samples_range native raw dt) as Hr.
    rewrite Forall_forall in Hr. apply Hr, Hu.
Qed.

(** X3. After a successful read the reader describes the file: its width
    times height times bytes per pixel is the length of the file, bytes per
    pixel is 1 or 2, and neither dimension is negative. *)
Theorem reader_describes_file self log raw image :
  let out := read_raw_file native (Ret raw) (self, log) in
  let self' := reader_after out in
  result_of out = Ret (Some image) ->
  buffer_size raw = width self' * height self' * bytes_per_pixel self'
  /\ (bytes_per_pixel self' = 1 \/ bytes_per_pixel self' = 2)
  /\ 0 <= width self' /\ 0 <= height self'.
Proof.
  intros out self' Hres.
  destruct (read_raw_file_some native self log raw image Hres)
    as (dt & Hbpp & Hsize & Hh & Hw & _).
  fold out in Hbpp, Hsize, Hh, Hw. fold self' in Hbpp, Hsize, Hh, Hw.
  rewrite Hbpp. split; [lia|]. split; [destruct dt; cbn; tauto|].
  split; assumption.
Qed.

End Accepted.

(* ================================================================== *)
(** ** Particular files *)
(* ================================================================== *)

Lemma words16_zeros order k :
  words16 order (repeat x00 (2 * k)) = repeat 0 k.
Proof.
  induction k as [|k IH]; [reflexivity|].
  replace (2 * S k)%nat with (S (S (2 * k))) by lia.
  cbn [repeat words16]. rewrite IH.
  destruct order; reflexivity.
Qed.

Lemma map_repeat {A B} (f : A -> B) a k :
  map f (repeat a k) = repeat (f a) k.
Proof. induction k as [|k IH]; cbn; [reflexivity|]. rewrite IH. reflexivity. Qed.

Lemma normalize_zero bits dt : normalize bits dt 0 = 0.
Proof. unfold normalize. destruct dt; [destruct (bits =? 12)|]; reflexivity. Qed.

Section Particular.

Variable native : byteorder.

(** X4. For hints that are not negative and are below 2^31, and either
    sample size, a file of exactly width times height times sample size
    zero bytes is returned as a frame of that height and width whose
    samples are all 0. *)
Theorem zero_file_gives_zero_frame self log dt :
  let w := width self in
  let h := height self in
  let raw := repeat x00 (Z.to_nat (w * h * itemsize dt)) in
  0 <= w < 2 ^ 31 -> 0 <= h < 2 ^ 31 ->
  result_of (read_raw_file native (Ret raw) (self, log))
  = Ret (Some (mk_ndarray uint16 [h; w] (repeat 0 (Z.to_nat (w * h))))).
Proof.
  intros w h raw Hw Hh.
  assert (Hfit : frame_fits h w = true)
    by (apply frame_fits_small; assumption).
  assert (Hwh : 0 <= w * h) by nia.
  assert (Hn : buffer_size raw = w * h * itemsize dt).
  { unfold buffer_size, raw. rewrite repeat_length, Z2Nat.id; [reflexivity|].
    destruct dt; cbn [itemsize]; lia. }
  rewrite read_raw_file_result. unfold decoded. fold w h. rewrite Hn.
  assert (H16 : forall k, raw = repeat x00 (2 * k) ->
            k = Z.to_nat (w * h) ->
            image_of native (bit_depth self) raw uint16 h w
            = Ret (mk_ndarray uint16 [h; w] (repeat 0 (Z.to_nat (w * h))))).
  { intros k Hraw Hk. rewrite image_of_exact; try assumption.
    - unfold frame_of. cbn [raw_samples]. rewrite Hraw, words16_zeros.
      rewrite map_repeat, normalize_zero, Hk. reflexivity.
    - unfold buffer_size. rewrite Hraw, repeat_length, Hk. cbn [itemsize].
      rewrite Nat2Z.inj_mul, Z2Nat.id by assumption. ring. }
  destruct dt; cbn [itemsize] in *.
  - rewrite Z.eqb_refl. rewrite (H16 (Z.to_nat (w * h))); [reflexivity| |lia].
    unfold raw. f_equal. lia.
  - destruct (Z.eqb_spec (w * h * 1) (w * h * 2)) as [E|E].
    + assert (Hz : w * h = 0) by lia.
      rewrite (H16 0%nat); [reflexivity| |rewrite Hz; reflexivity].
      unfold raw. rewrite Hz. reflexivity.
    + rewrite Z.eqb_refl.
      rewrite image_of_exact
        by (first [exact Hfit | cbn [itemsize]; lia]).
      unfold frame_of. cbn [raw_samples]. unfold raw.
      rewrite !map_repeat. change (byte_val x00) with 0.
      rewrite normalize_zero, Z.mul_1_r. reflexivity.
Qed.

(** X5. A file one byte longer than a two-byte candidate, and not of a
    hinted size, passes the floor-division test of that candidate: the
    reader announces the detection and takes over the candidate's width
    and height, the odd buffer then fails to convert, and [None] is
    returned with the reader left retargeted. *)
Theorem odd_byte_after_candidate self log raw w' h' :
  let n := buffer_size raw in
  let out := read_raw_file native (Ret raw) (self, log) in
  In (w', h') common_resolutions ->
  n = w' * h' * 2 + 1 ->
  n <> width self * height self * 2 ->
  n <> width self * height self * 1 ->
  result_of out = Ret None
  /\ reader_after out = mk_reader w' h' (bit_depth self) 2
  /\ exists before e,
       log_after out
       = log ++ before ++ [MsgAutoDetected w' h' "16-bit"; MsgErrorReading e].
Proof.
  intros n out Hin Hn H2 H1. subst out. rewrite read_raw_file_run.
  cbv zeta. fold n.
  destruct (Z.eqb_spec n (width self * height self * 2)); [contradiction|].
  destruct (Z.eqb_spec n (width self * height self * 1)); [contradiction|].
  assert (Hodd : buffer_size raw mod 2 = 1).
  { fold n. rewrite Hn, Z.add_comm, Z.mod_add by lia. reflexivity. }
  assert (Hf : find (floor_match n) candidates
               = Some (2, uint16, "16-bit"%string, (w', h'))).
  { cbn [common_resolutions In] in Hin.
    destruct Hin as [Hc|[Hc|[Hc|[]]]]; injection Hc as <- <-;
      rewrite Hn; reflexivity. }
  rewrite Hf.
  destruct (image_of_odd native (bit_depth self) raw h' w' Hodd) as [e He].
  rewrite He. unfold caught, result_of, reader_after, log_after.
  cbn [fst snd]. split; [reflexivity|]. split; [reflexivity|].
  eexists [_; _; _; _], e. rewrite <- app_assoc. reflexivity.
Qed.

(** X6. When the length of the file equals the hinted width times height,
    times 2 or times 1, and a hint is negative, the reader gives up with
    [None] and never goes on to the candidate resolutions, even for a file
    of a candidate size; the hints stay as they were. *)
Theorem negative_hint_stops_detection self log raw :
  let n := buffer_size raw in
  let w := width self in
  let h := height self in
  let out := read_raw_file native (Ret raw) (self, log) in
  n = w * h * 2 \/ n = w * h * 1 ->
  w < 0 \/ h < 0 ->
  result_of out = Ret None
  /\ ~ In MsgNoExactMatch (skipn (List.length log) (log_after out))
  /\ width (reader_after out) = w /\ height (reader_after out) = h.
Proof.
  intros n w h out Hn Hneg. subst out. rewrite read_raw_file_run.
  cbv zeta. fold n w h.
  assert (Hskip : forall rest : list message,
            skipn (List.length log) (log ++ rest) = rest).
  { intros rest. rewrite skipn_app, skipn_all, Nat.sub_diag. reflexivity. }
  destruct (Z.eqb_spec n (w * h * 2)) as [E2|E2].
  - destruct (image_of_negative native (bit_depth self) raw uint16 h w)
      as [e He]; [cbn [itemsize]; fold n; lia | tauto |].
    rewrite He. unfold caught, result_of, reader_after, log_after.
    cbn [fst snd with_bpp width height].
    rewrite <- app_assoc, Hskip. repeat split.
    cbn [app In]. intros [H|[H|[H|[H|[]]]]]; discriminate.
  - destruct (Z.eqb_spec n (w * h * 1)) as [E1|E1]; [|tauto].
    destruct (image_of_negative native (bit_depth self) raw uint8 h w)
      as [e He]; [cbn [itemsize]; fold n; lia | tauto |].
    rewrite He. unfold caught, result_of, reader_after, log_after.
    cbn [fst snd with_bpp width height].
    rewrite <- app_assoc, Hskip. repeat split.
    cbn [app In]. intros [H|[H|[H|[H|[H|[]]]]]]; discriminate.
Qed.

End Particular.

(* ================================================================== *)
(** ** One reader, several files *)
(* ================================================================== *)

Lemma byte_val_inj a b : byte_val a = byte_val b -> a = b.
Proof.
  unfold byte_val. intros H. apply N2Z.inj in H.
  pose proof (Byte.of_to_N a) as Ha. rewrite H, Byte.of_to_N in Ha.
  congruence.
Qed.

Lemma word16_inj order a0 a1 b0 b1 :
  word16 order a0 a1 = word16 order b0 b1 -> a0 = b0 /\ a1 = b1.
Proof.
  pose proof (byte_val_range a0). pose proof (byte_val_range a1).
  pose proof (byte_val_range b0). pose proof (byte_val_range b1).
  destruct order; cbn [word16]; intros Heq;
    split; apply byte_val_inj; lia.
Qed.

Lemma words16_inj order raw1 raw2 :
  List.length raw1 = List.length raw2 ->
  Nat.even (List.length raw1) = true ->
  words16 order raw1 = words16 order raw2 -> raw1 = raw2.
Proof.
  revert raw1 raw2. fix IH 1.
  intros [|a0 [|a1 rest1]] [|b0 [|b1 rest2]]; cbn [List.length];
    try discriminate; try reflexivity.
  intros Hlen Heven Hw. cbn [words16] in Hw.
  injection Hw as Hword Hrest.
  apply word16_inj in Hword. destruct Hword as [-> ->].
  f_equal. f_equal. apply IH.
  - congruence.
  - exact Heven.
  - exact Hrest.
Qed.

Lemma map_inj_in {A B} (f : A -> B) (l1 l2 : list A) :
  (forall x y, In x l1 -> In y l2 -> f x = f y -> x = y) ->
  map f l1 = map f l2 -> l1 = l2.
Proof.
  revert l2. induction l1 as [|x l1 IH]; intros [|y l2] Hinj Heq;
    try discriminate; [reflexivity|].
  cbn [map] in Heq. injection Heq as Hxy Hrest. f_equal.
  - apply Hinj; [left; reflexivity | left; reflexivity | exact Hxy].
  - apply IH; [|exact Hrest].
    intros a b Ha Hb. apply Hinj; right; assumption.
Qed.

Lemma updated_by_size self raw1 raw2 :
  buffer_size raw1 = buffer_size raw2 -> updated self raw1 = updated self raw2.
Proof. unfold updated. intros ->. reflexivity. Qed.

Section Reuse.

Variable native : byteorder.

(** The reader a read leaves behind either has the file's size as its
    hinted size, or belongs to a read that returned [None] and would be
    left unchanged by reading the file again. *)
Lemma updated_cases self raw :
  let n := buffer_size raw in
  let self' := updated self raw in
  (n = width self' * height self' * 2 /\ bytes_per_pixel self' = 2)
  \/ (n <> width self' * height self' * 2
      /\ n = width self' * height self' * 1 /\ bytes_per_pixel self' = 1)
  \/ (decoded native (width self) (height self) (bit_depth self) raw = None
      /\ updated self' raw = self').
Proof.
  cbv zeta.
  destruct (buffer_size raw =? width self * height self * 2) eqn:E2.
  { assert (Hu : updated self raw = with_bpp self 2)
      by (unfold updated; rewrite E2; reflexivity).
    rewrite Hu. left. cbn [with_bpp width height bytes_per_pixel].
    apply Z.eqb_eq in E2. tauto. }
  destruct (buffer_size raw =? width self * height self * 1) eqn:E1.
  { assert (Hu : updated self raw = with_bpp self 1)
      by (unfold updated; rewrite E2, E1; reflexivity).
    rewrite Hu. right; left. cbn [with_bpp width height bytes_per_pixel].
    apply Z.eqb_eq in E1. apply Z.eqb_neq in E2. tauto. }
  destruct (find (floor_match (buffer_size raw)) candidates)
    as [[[[bpp dt] description] [w' h']]|] eqn:Hf.
  - assert (Hu : updated self raw = mk_reader w' h' (bit_depth self) bpp)
      by (unfold updated; rewrite E2, E1, Hf; reflexivity).
    rewrite Hu. cbn [width height bytes_per_pixel].
    pose proof Hf as Hc.
    apply floor_match_found in Hc; [|apply buffer_size_nonneg].
    destruct Hc as (Hb & Hin & Hsz).
    cbn [common_resolutions In] in Hin.
    destruct Hsz as [Hex|[-> Hodd]].
    + destruct dt; cbn [itemsize] in *; subst bpp.
      * left. split; [lia|reflexivity].
      * right; left. split; [|split; [lia|reflexivity]].
        destruct Hin as [Hc|[Hc|[Hc|[]]]]; injection Hc as <- <-; lia.
    + right; right. cbn [itemsize] in Hb. subst bpp. split.
      * unfold decoded. rewrite E2, E1, Hf.
        destruct (image_of_odd native (bit_depth self) raw h' w' Hodd)
          as [e ->].
        reflexivity.
      * pose proof (halves _ (buffer_size_nonneg raw))
          as (d & m & Hn & Hd & Hm & Hm01).
        assert (Hd' : d = w' * h').
        { revert Hf.
          unfold candidates, formats_to_try, common_resolutions.
          cbn [flat_map map app find floor_match]. rewrite Hd.
          destruct Hin as [Hc|[Hc|[Hc|[]]]]; injection Hc as <- <-;
            repeat match goal with
            | |- context [Z.eqb ?a ?b] => destruct (Z.eqb_spec a b); try lia
            end; discriminate. }
        unfold updated. cbn [width height bit_depth].
        destruct (Z.eqb_spec (buffer_size raw) (w' * h' * 2)); [lia|].
        destruct (Z.eqb_spec (buffer_size raw) (w' * h' * 1)).
        { exfalso.
          destruct Hin as [Hc|[Hc|[Hc|[]]]]; injection Hc as <- <-; lia. }
        rewrite Hf. reflexivity.
  - assert (Hu : updated self raw = self)
      by (unfold updated; rewrite E2, E1, Hf; reflexivity).
    rewrite Hu. right; right. split; [|exact Hu].
    unfold decoded. rewrite E2, E1, Hf. reflexivity.
Qed.

(** X7. A second read of the same file leaves the reader as the first
    read left it, and whenever the first read returned a frame the second
    finds the file by the hinted test (it prints the detected format with
    the reader's width and height) and not by auto-detection. *)
Theorem reader_settles_after_first_read self log raw :
  let first := read_raw_file native (Ret raw) (self, log) in
  let second := read_raw_file native (Ret raw) (snd first) in
  reader_after second = reader_after first
  /\ (forall image, result_of first = Ret (Some image) ->
        exists description,
          In (MsgDetected description (width (reader_after first))
                (height (reader_after first)))
             (skipn (List.length (log_after first)) (log_after second))).
Proof.
  intros first second.
  pose proof (read_raw_file_reader native self log raw) as Hr.
  pose proof (read_raw_file_result native self log raw) as Ho.
  fold first in Hr, Ho. subst second.
  destruct first as [o [self' log']].
  unfold reader_after, result_of, log_after in *. cbn [fst snd] in *.
  pose proof (updated_cases self raw) as Hcases. cbv zeta in Hcases.
  rewrite <- Hr in Hcases. rewrite Ho.
  assert (Hskip : forall rest : list message,
            skipn (List.length log') (log' ++ rest) = rest).
  { intros rest. rewrite skipn_app, skipn_all, Nat.sub_diag. reflexivity. }
  fold (reader_after (read_raw_file native (Ret raw) (self', log'))).
  rewrite read_raw_file_reader. split.
  - destruct Hcases as [[E2 Hb]|[(E2 & E1 & Hb)|[_ Hu]]].
    + unfold updated. rewrite E2, Z.eqb_refl.
      destruct self'; cbn in *; subst; reflexivity.
    + unfold updated.
      destruct (Z.eqb_spec (buffer_size raw) (width self' * height self' * 2));
        [contradiction|].
      rewrite E1 at 1. rewrite Z.eqb_refl.
      destruct self'; cbn in *; subst; reflexivity.
    + exact Hu.
  - intros image Himg. rewrite read_raw_file_run. cbv zeta.
    destruct Hcases as [[E2 Hb]|[(E2 & E1 & Hb)|[Hnone _]]].
    + destruct (Z.eqb_spec (buffer_size raw) (width self' * height self' * 2));
        [|contradiction].
      exists "16-bit"%string.
      destruct (image_of _ _ _ _ _ _); unfold caught; cbn [fst snd];
        [|rewrite <- app_assoc]; rewrite Hskip; cbn; tauto.
    + destruct (Z.eqb_spec (buffer_size raw) (width self' * height self' * 2));
        [contradiction|].
      destruct (Z.eqb_spec (buffer_size raw) (width self' * height self' * 1));
        [|contradiction].
      exists "8-bit"%string.
      destruct (image_of _ _ _ _ _ _); unfold caught; cbn [fst snd];
        [|rewrite <- app_assoc]; rewrite Hskip; cbn; tauto.
    + congruence.
Qed.

End Reuse.

Section Order.

Variable native : byteorder.

(** X8. Reading depends on what the reader read before. For hints that
    are not negative and are below 2^31, a small file of the hinted 16-bit
    size is accepted by the reader as constructed; once the same reader
    has auto-detected a file of a candidate size, its hints are those of
    the candidate and the small file is refused. *)
Theorem hints_lost_after_auto_detect self log small big :
  let w := width self in
  let h := height self in
  let after_big := snd (read_raw_file native (Ret big) (self, log)) in
  0 <= w < 2 ^ 31 -> 0 <= h < 2 ^ 31 ->
  buffer_size small = w * h * 2 ->
  buffer_size small < 773056 ->
  In (buffer_size big) candidate_sizes ->
  (exists image,
     result_of (read_raw_file native (Ret small) (self, log))
     = Ret (Some image))
  /\ result_of (read_raw_file native (Ret small) after_big) = Ret None.
Proof.
  intros w h after_big Hw Hh Hsmall Hlt Hbig. split.
  - rewrite read_raw_file_result. unfold decoded. fold w h.
    rewrite Hsmall, Z.eqb_refl.
    rewrite image_of_exact
      by (first [apply frame_fits_small; assumption | cbn [itemsize]; lia]).
    eexists; reflexivity.
  - pose proof (read_raw_file_reader native self log big) as Hr.
    subst after_big.
    destruct (read_raw_file native (Ret big) (self, log)) as [o [sb lb]].
    unfold reader_after in Hr. cbn [fst snd] in *.
    rewrite read_raw_file_result. subst sb.
    assert (Hwh : 0 <= w * h) by nia.
    assert (Hmin : 773056 <= buffer_size big).
    { revert Hbig.
      unfold candidate_sizes, candidates, formats_to_try, common_resolutions.
      cbn [flat_map map app In]. lia. }
    destruct (candidate_found _ Hbig)
      as (bpp & dt & description & w' & h' & Hf & Hex & Hfit).
    pose proof Hf as Hc.
    apply floor_match_found in Hc; [|apply buffer_size_nonneg].
    destruct Hc as (_ & Hin & _).
    unfold updated. fold w h.
    destruct (Z.eqb_spec (buffer_size big) (w * h * 2)); [lia|].
    destruct (Z.eqb_spec (buffer_size big) (w * h * 1)); [lia|].
    rewrite Hf. cbn [width height bit_depth].
    unfold decoded.
    destruct (halves _ (buffer_size_nonneg small))
      as (d & m & Hn & Hd & Hm & Hm01).
    unfold candidates, formats_to_try, common_resolutions.
    cbn [flat_map map app find floor_match].
    rewrite Hd, Z.div_1_r.
    cbn [common_resolutions In] in Hin.
    destruct Hin as [Hc|[Hc|[Hc|[]]]]; injection Hc as <- <-;
      repeat match goal with
      | |- context [Z.eqb ?a ?b] => destruct (Z.eqb_spec a b); try lia
      end; reflexivity.
Qed.

(** X9. Scaling loses nothing for one-byte files, and for two-byte files
    when the bit depth is not 12: two files of the same length that the
    same reader turns into the same frame are the same file. *)
Theorem frame_determines_file self log raw1 raw2 image :
  let out1 := read_raw_file native (Ret raw1) (self, log) in
  let out2 := read_raw_file native (Ret raw2) (self, log) in
  buffer_size raw1 = buffer_size raw2 ->
  result_of out1 = Ret (Some image) ->
  result_of out2 = Ret (Some image) ->
  bytes_per_pixel (reader_after out1) = 1 \/ bit_depth self <> 12 ->
  raw1 = raw2.
Proof.
  intros out1 out2 Hlen H1 H2 Hcase.
  destruct (read_raw_file_some native self log raw1 image H1)
    as (dt1 & Hb1 & Hs1 & _ & _ & Hi1).
  destruct (read_raw_file_some native self log raw2 image H2)
    as (dt2 & Hb2 & _ & _ & _ & Hi2).
  fold out1 in Hb1, Hs1, Hi1. fold out2 in Hb2, Hi2.
  assert (Hsame : reader_after out2 = reader_after out1).
  { subst out1 out2. rewrite !read_raw_file_reader.
    symmetry. apply updated_by_size, Hlen. }
  rewrite Hsame in Hb2, Hi2.
  assert (Hdt : dt2 = dt1)
    by (destruct dt1, dt2; cbn [itemsize] in *; congruence || lia).
  subst dt2. rewrite Hi1 in Hi2. unfold frame_of in Hi2.
  injection Hi2 as Hdata.
  destruct dt1; cbn [itemsize raw_samples] in *.
  - destruct Hcase as [Hone|Hbits]; [lia|].
    assert (Hid : forall l, map (normalize (bit_depth self) uint16) l = l).
    { intros l. rewrite <- (map_id l) at 2. apply map_ext.
      intros v. apply normalize_other_depth, Hbits. }
    rewrite !Hid in Hdata.
    apply (words16_inj native); [| |exact Hdata].
    + unfold buffer_size in Hlen. lia.
    + apply Nat.even_spec.
      exists (Z.to_nat (height (reader_after out1)
                        * width (reader_after out1))).
      unfold buffer_size in Hs1.
      pose proof (Z.mul_nonneg_nonneg 2 0 ltac:(lia) ltac:(lia)).
      assert (0 <= height (reader_after out1) * width (reader_after out1))
        by lia.
      lia.
  - rewrite !map_map in Hdata.
    apply (map_inj_in (fun b => normalize (bit_depth self) uint8 (byte_val b)));
      [|exact Hdata].
    intros x y _ _ Hxy.
    rewrite !normalize_8bit in Hxy by apply byte_val_range.
    rewrite !Z.shiftl_mul_pow2 in Hxy by lia.
    apply byte_val_inj. change (2 ^ 8) with 256 in Hxy. lia.
Qed.

(** With a bit depth of 12 the four high bits of a two-byte sample are
    lost: two different files give the same frame. *)
Lemma twelve_bit_scaling_hides_high_bits :
  result_of (read_raw_file LittleEndian (Ret [x00; x10]) (init 1 1 12, []))
  = result_of (read_raw_file LittleEndian (Ret [x00; x00]) (init 1 1 12, [])).
Proof. reflexivity. Qed.

End Order.

(* ================================================================== *)
(** ** What the demosaicer is given *)
(* ================================================================== *)

Lemma high_byte_of_12bit v :
  0 <= v < 4096 -> Z.shiftr (normalize 12 uint16 v) 8 mod 256 = Z.shiftr v 4.
Proof.
  intros Hv. rewrite normalize_12bit by assumption.
  rewrite Z.shiftr_shiftl_r by lia. change (8 - 4) with 4.
  apply Z.mod_small. rewrite Z.shiftr_div_pow2 by lia.
  change (2 ^ 4) with 16. split.
  - apply Z.div_pos; lia.
  - apply Z.div_lt_upper_bound; lia.
Qed.

Lemma high_byte_of_16bit v :
  0 <= v < 65536 -> Z.shiftr v 8 mod 256 = Z.shiftr v 8.
Proof.
  intros Hv. apply Z.mod_small. rewrite Z.shiftr_div_pow2 by lia.
  change (2 ^ 8) with 256. split.
  - apply Z.div_pos; lia.
  - apply Z.div_lt_upper_bound; lia.
Qed.

Section DemosaicInput.

Variable native : byteorder.
Variable cvtColor : ndarray -> Z -> ndarray.

(** X10. For a file accepted at two bytes per sample, the interpolation
    is given one byte per sample: the stored value shifted right by 4 when
    the bit depth is 12 and the stored values are 12-bit, and the stored
    value shifted right by 8 (its high byte) for any other bit depth. *)
Theorem demosaic_gets_high_bits self log raw image pattern code :
  let out := read_raw_file native (Ret raw) (self, log) in
  let given k :=
    mk_ndarray uint8 [height (reader_after out); width (reader_after out)]
      (map (fun v => Z.shiftr v k) (words16 native raw)) in
  result_of out = Ret (Some image) ->
  bytes_per_pixel (reader_after out) = 2 ->
  dict_get pattern_map pattern = Some code ->
  (bit_depth self = 12 ->
   Forall (fun v => v < 4096) (words16 native raw) ->
   demosaic_bayer cvtColor image pattern
   = (Some (cvtColor (given 4) code), [CvtColorCall (given 4) code]))
  /\ (bit_depth self <> 12 ->
      demosaic_bayer cvtColor image pattern
      = (Some (cvtColor (given 8) code), [CvtColorCall (given 8) code])).
Proof.
  intros out given Hres H2 Hcode.
  destruct (read_raw_file_some native self log raw image Hres)
    as (dt & Hbpp & _ & _ & _ & ->).
  fold out in Hbpp. fold out.
  destruct dt; cbn [itemsize] in Hbpp; [|lia].
  unfold demosaic_bayer. rewrite Hcode.
  unfold frame_of, rshift, astype, given.
  cbn [arr_dtype arr_shape arr_data raw_samples].
  rewrite !map_map. split.
  - intros H12 Hsmall. rewrite H12.
    assert (Hdata :
      map (fun x => Z.shiftr (normalize 12 uint16 x) 8 mod 256)
        (words16 native raw)
      = map (fun v => Z.shiftr v 4) (words16 native raw)).
    { apply map_ext_in. intros v Hv. apply high_byte_of_12bit. split.
      - pose proof (words16_nonneg native raw) as Hpos.
        rewrite Forall_forall in Hpos. apply Hpos, Hv.
      - rewrite Forall_forall in Hsmall. apply Hsmall, Hv. }
    rewrite Hdata. reflexivity.
  - intros Hbits.
    assert (Hdata :
      map (fun x => Z.shiftr (normalize (bit_depth self) uint16 x) 8 mod 256)
        (words16 native raw)
      = map (fun v => Z.shiftr v 8) (words16 native raw)).
    { apply map_ext_in. intros v Hv.
      rewrite normalize_other_depth by assumption.
      apply high_byte_of_16bit.
      pose proof (words16_range native raw) as Hr.
      rewrite Forall_forall in Hr. apply Hr, Hv. }
    rewrite Hdata. reflexivity.
Qed.

End DemosaicInput.

(* ================================================================== *)
(** ** process_raw_file *)
(* ================================================================== *)

Lemma fold_min_spec rest v :
  let m := fold_left Z.min rest v in
  In m (v :: rest) /\ Forall (fun x => m <= x) (v :: rest).
Proof.
  cbv zeta. revert v. induction rest as [|x rest IH]; intros v.
  - cbn. split; [tauto|]. constructor; [lia|constructor].
  - cbn [fold_left]. destruct (IH (Z.min v x)) as [Hin Hall]. split.
    + destruct Hin as [Hm|Hm]; [|right; right; exact Hm].
      rewrite <- Hm.
      destruct (Z.min_spec v x) as [[_ ->]|[_ ->]]; cbn; tauto.
    + inversion Hall as [|y l Hy Hl]; subst.
      constructor; [lia|]. constructor; [lia|exact Hl].
Qed.

Lemma fold_max_spec rest v :
  let m := fold_left Z.max rest v in
  In m (v :: rest) /\ Forall (fun x => x <= m) (v :: rest).
Proof.
  cbv zeta. revert v. induction rest as [|x rest IH]; intros v.
  - cbn. split; [tauto|]. constructor; [lia|constructor].
  - cbn [fold_left]. destruct (IH (Z.max v x)) as [Hin Hall]. split.
    + destruct Hin as [Hm|Hm]; [|right; right; exact Hm].
      rewrite <- Hm.
      destruct (Z.max_spec v x) as [[_ ->]|[_ ->]]; cbn; tauto.
    + inversion Hall as [|y l Hy Hl]; subst.
      constructor; [lia|]. constructor; [lia|exact Hl].
Qed.

Lemma frame_of_range native bits raw dt h w :
  Forall (fun v => 0 <= v < 65536) (arr_data (frame_of native bits raw dt h w)).
Proof.
  unfold frame_of. cbn [arr_data].
  apply Forall_forall. intros v Hv. apply in_map_iff in Hv.
  destruct Hv as (u & <- & Hu). apply normalize_range.
  pose proof (raw_samples_range native raw dt) as Hr.
  rewrite Forall_forall in Hr. apply Hr, Hu.
Qed.

Lemma words16_nil order raw :
  Nat.even (List.length raw) = true -> words16 order raw = [] -> raw = [].
Proof.
  destruct raw as [|b0 [|b1 rest]]; cbn; intros; congruence.
Qed.

Lemma read_raw_file_returns native file s :
  exists v, result_of (read_raw_file native file s) = Ret v.
Proof.
  destruct (read_raw_file_never_raises native file s) as (v & Hv & _).
  exists v. exact Hv.
Qed.

Section Process.

Variable native : byteorder.
Variable cvtColor : ndarray -> Z -> ndarray.

(** The whole method, by what the reader returned. *)
Lemma process_raw_file_run self filepath file bayer_pattern display :
  let read := read_raw_file native file (self, []) in
  let self' := reader_after read in
  let events := SaidProcessing filepath :: map Said (log_after read) in
  process_raw_file native cvtColor self filepath file bayer_pattern display
  = match result_of read with
    | Raise e => (Raise e, self', events)
    | Ret None => (Ret (None, None), self', events)
    | Ret (Some image) =>
        match arr_data image with
        | [] =>
            (Raise (ValueError
                      "zero-size array to reduction operation minimum"),
             self', events ++ [SaidLoaded (arr_shape image)])
        | v :: rest =>
            let lo := fold_left Z.min rest v in
            let hi := fold_left Z.max rest v in
            match dict_get pattern_map bayer_pattern with
            | None =>
                (Ret (Some image, None), self',
                 events ++ [SaidLoaded (arr_shape image); SaidRange lo hi;
                            Did (Printed (MsgUnknownPattern bayer_pattern))])
            | Some code =>
                let src := astype (rshift image 8) uint8 in
                let rgb := cvtColor src code in
                (Ret (Some image, Some rgb), self',
                 events ++ [SaidLoaded (arr_shape image); SaidRange lo hi;
                            Did (CvtColorCall src code);
                            SaidCreated (arr_shape rgb)]
                        ++ (if display then [Shown image rgb filepath]
                            else []))
            end
        end
    end.
Proof.
  cbv zeta. unfold process_raw_file.
  destruct (read_raw_file native file (self, [])) as [o [self1 log1]].
  unfold result_of, reader_after, log_after. cbn [fst snd].
  destruct o as [[image|]|e]; try reflexivity.
  unfold ndarray_min, ndarray_max, demosaic_bayer.
  destruct (arr_data image) as [|v rest]; [reflexivity|].
  destruct (dict_get pattern_map bayer_pattern) as [code|].
  - cbn [map]. destruct display; rewrite <- ?app_assoc; reflexivity.
  - cbn [map]. rewrite <- ?app_assoc. reflexivity.
Qed.

(** A frame without samples comes from an empty file under a hint of
    zero width or height, and from nothing else. *)
Lemma empty_frame_iff self log raw image :
  result_of (read_raw_file native (Ret raw) (self, log)) = Ret (Some image) ->
  arr_data image = []
  <-> raw = [] /\ width self * height self = 0.
Proof.
  intros Hres.
  pose proof (read_raw_file_some native self log raw image Hres) as Hsome.
  cbv zeta in Hsome.
  destruct Hsome as (dt & _ & Hsize & Hh' & Hw' & Himg).
  rewrite read_raw_file_result in Hres. injection Hres as Hv.
  split.
  - intros Hdata. rewrite Himg in Hdata. unfold frame_of in Hdata.
    cbn [arr_data] in Hdata. apply map_eq_nil in Hdata.
    assert (Hraw : raw = []).
    { destruct dt; cbn [raw_samples] in Hdata.
      - apply (words16_nil native); [|exact Hdata].
        apply Nat.even_spec.
        set (self' := reader_after _) in *.
        exists (Z.to_nat (height self' * width self')).
        unfold buffer_size in Hsize. cbn [itemsize] in Hsize.
        assert (0 <= height self' * width self') by nia. lia.
      - apply map_eq_nil in Hdata. exact Hdata. }
    subst raw. split; [reflexivity|].
    revert Hv. unfold decoded. cbn [buffer_size List.length Z.of_nat].
    destruct (Z.eqb_spec 0 (width self * height self * 2)); [lia|].
    destruct (Z.eqb_spec 0 (width self * height self * 1)); [lia|].
    discriminate.
  - intros [-> Hwh].
    revert Hv. unfold decoded. cbn [buffer_size List.length Z.of_nat].
    destruct (Z.eqb_spec 0 (width self * height self * 2)); [|lia].
    destruct (image_of native (bit_depth self) [] uint16 (height self)
                (width self)) as [i|err] eqn:Hi; [|discriminate].
    apply image_of_inv in Hi; [|cbn; lia].
    destruct Hi as (_ & _ & ->). intros Heq. injection Heq as <-.
    reflexivity.
Qed.

(** X11. For hints below 2^31 and on a console that can encode every
    message, [process_raw_file] lets an exception out in one case only:
    the file is empty and the hinted width or height is zero (neither
    being negative), so that the reader returns a frame without samples
    and taking its minimum fails. *)
Theorem process_raises_only_on_empty_frame
    self filepath file bayer_pattern display :
  width self < 2 ^ 31 -> height self < 2 ^ 31 ->
  (exists e,
     fst (fst (process_raw_file native cvtColor self filepath file
                 bayer_pattern display)) = Raise e)
  <-> file = Ret []
      /\ width self * height self = 0
      /\ 0 <= width self /\ 0 <= height self.
Proof.
  intros Hwmax Hhmax.
  rewrite process_raw_file_run. cbv zeta.
  destruct file as [raw|e0].
  2:{ rewrite read_raw_file_io_error. unfold result_of. cbn [fst].
      split; [intros [e He]; discriminate|].
      intros [Hfile _]. discriminate. }
  destruct (result_of (read_raw_file native (Ret raw) (self, [])))
    as [[image|]|e] eqn:Hres.
  - pose proof (empty_frame_iff self [] raw image Hres) as Hempty.
    pose proof Hres as Hdec. rewrite read_raw_file_result in Hdec.
    injection Hdec as Hdec.
    destruct (arr_data image) as [|v rest].
    + cbn [fst]. split.
      * intros _. destruct Hempty as [Hempty _].
        destruct (Hempty eq_refl) as [-> Hwh].
        split; [reflexivity|]. split; [exact Hwh|].
        revert Hdec. unfold decoded. cbn [buffer_size List.length Z.of_nat].
        destruct (Z.eqb_spec 0 (width self * height self * 2)); [|lia].
        destruct (image_of native (bit_depth self) [] uint16 (height self)
                    (width self)) as [i|err] eqn:Hi; [|discriminate].
        apply image_of_inv in Hi; [|cbn; lia]. tauto.
      * intros _. eexists; reflexivity.
    + split.
      * intros [e He].
        destruct (dict_get pattern_map bayer_pattern); discriminate.
      * intros (Hfile & Hwh & _). injection Hfile as ->.
        destruct Hempty as [_ Hempty].
        discriminate (Hempty (conj eq_refl Hwh)).
  - cbn [fst]. split; [intros [e He]; discriminate|].
    intros (Hfile & Hwh & Hw & Hh). injection Hfile as ->. exfalso.
    rewrite read_raw_file_result in Hres. injection Hres as Hres.
    revert Hres. unfold decoded. cbn [buffer_size List.length Z.of_nat].
    destruct (Z.eqb_spec 0 (width self * height self * 2)); [|lia].
    rewrite image_of_exact
      by (first [apply frame_fits_small; lia | cbn; lia]).
    discriminate.
  - destruct (read_raw_file_returns native (Ret raw) (self, [])) as [v Hv].
    congruence.
Qed.

(** X12. What [process_raw_file] returns: the raw image is what the
    reader returned, the reader is left as the reader left it, an RGB image
    comes only with a raw image and only for one of the four patterns, and
    it is then the interpolation of the raw image's high bytes. *)
Theorem process_returns_read_then_demosaic
    self filepath file bayer_pattern display raw_image rgb_image :
  let out :=
    process_raw_file native cvtColor self filepath file bayer_pattern
      display in
  let read := read_raw_file native file (self, []) in
  fst (fst out) = Ret (raw_image, rgb_image) ->
  result_of read = Ret raw_image
  /\ snd (fst out) = reader_after read
  /\ (raw_image = None -> rgb_image = None)
  /\ (forall rgb, rgb_image = Some rgb ->
        In bayer_pattern bayer_patterns
        /\ exists image code,
             raw_image = Some image
             /\ dict_get pattern_map bayer_pattern = Some code
             /\ rgb = cvtColor (astype (rshift image 8) uint8) code)
  /\ (forall image, raw_image = Some image ->
        In bayer_pattern bayer_patterns -> rgb_image <> None).
Proof.
  cbv zeta. rewrite process_raw_file_run. cbv zeta.
  assert (Hknown : forall code,
            dict_get pattern_map bayer_pattern = Some code ->
            In bayer_pattern bayer_patterns).
  { intros code. unfold pattern_map, dict_get, bayer_patterns. cbn [In].
    repeat match goal with
    | |- context [String.eqb bayer_pattern ?k] =>
        destruct (String.eqb_spec bayer_pattern k);
        [intros _; subst; repeat ((left; reflexivity) || right)|]
    end.
    discriminate. }
  assert (Hunknown : dict_get pattern_map bayer_pattern = None ->
            ~ In bayer_pattern bayer_patterns).
  { unfold bayer_patterns. cbn [In].
    intros Hnone [<-|[<-|[<-|[<-|[]]]]]; discriminate. }
  destruct (result_of (read_raw_file native file (self, [])))
    as [[image|]|e]; cbn [fst snd].
  - destruct (arr_data image) as [|v rest]; [discriminate|].
    destruct (dict_get pattern_map bayer_pattern) as [code|] eqn:Hcode;
      cbn [fst snd]; intros Heq; injection Heq as <- <-.
    + split; [reflexivity|]. split; [reflexivity|].
      split; [discriminate|]. split.
      * intros rgb Hrgb. injection Hrgb as <-.
        split; [exact (Hknown code eq_refl)|].
        exists image, code. repeat split.
      * discriminate.
    + split; [reflexivity|]. split; [reflexivity|].
      split; [reflexivity|]. split; [discriminate|].
      intros i _ Hin. exfalso. exact (Hunknown eq_refl Hin).
  - intros Heq. injection Heq as <- <-.
    split; [reflexivity|]. split; [reflexivity|].
    split; [reflexivity|]. split; discriminate.
  - discriminate.
Qed.

(** X13. The figure is shown exactly when [display] is set and both
    images are returned, once, with those two images; with [display] off
    nothing is ever shown. *)
Theorem shown_only_on_request
    self filepath file bayer_pattern display raw_image rgb_image path :
  let out :=
    process_raw_file native cvtColor self filepath file bayer_pattern
      display in
  In (Shown raw_image rgb_image path) (snd out)
  <-> display = true /\ path = filepath
      /\ fst (fst out) = Ret (Some raw_image, Some rgb_image).
Proof.
  cbv zeta. rewrite process_raw_file_run. cbv zeta.
  assert (Hsaid : forall log,
            ~ In (Shown raw_image rgb_image path)
                (SaidProcessing filepath :: map Said log)).
  { intros log [H|H]; [discriminate|].
    apply in_map_iff in H. destruct H as (m & Hm & _). discriminate. }
  destruct (result_of (read_raw_file native file (self, [])))
    as [[image|]|e]; cbn [fst snd].
  - destruct (arr_data image) as [|v rest]; cbn [fst snd].
    { split; [|intros (_ & _ & H); discriminate].
      intros H. apply in_app_or in H. destruct H as [H|[H|[]]];
        [exfalso; exact (Hsaid _ H) | discriminate]. }
    destruct (dict_get pattern_map bayer_pattern) as [code|];
      cbn [fst snd].
    + split.
      * intros H. apply in_app_or in H. destruct H as [H|H];
          [exfalso; exact (Hsaid _ H)|].
        apply in_app_or in H. destruct H as [H|H].
        { destruct H as [H|[H|[H|[H|[]]]]]; discriminate. }
        destruct display; [|destruct H].
        destruct H as [H|[]]. injection H as <- <- <-. repeat split.
      * intros (-> & -> & Heq). injection Heq as <- <-.
        apply in_or_app. right. apply in_or_app. right. left. reflexivity.
    + split; [|intros (_ & _ & H); discriminate].
      intros H. apply in_app_or in H. destruct H as [H|H];
        [exfalso; exact (Hsaid _ H)|].
      destruct H as [H|[H|[H|[]]]]; discriminate.
  - split; [|intros (_ & _ & H); discriminate].
    intros H. exfalso. exact (Hsaid _ H).
  - split; [|intros (_ & _ & H); discriminate].
    intros H. exfalso. exact (Hsaid _ H).
Qed.

(** X14. Whenever a raw image is returned, the data range printed is
    its smallest and its largest sample: both are samples of the image,
    every sample lies between them, and they lie between 0 and 65535. *)
Theorem printed_range_is_min_and_max
    self filepath file bayer_pattern display image rgb_image :
  let out :=
    process_raw_file native cvtColor self filepath file bayer_pattern
      display in
  fst (fst out) = Ret (Some image, rgb_image) ->
  exists lo hi,
    In (SaidRange lo hi) (snd out)
    /\ In lo (arr_data image) /\ In hi (arr_data image)
    /\ Forall (fun v => lo <= v <= hi) (arr_data image)
    /\ 0 <= lo /\ hi < 65536.
Proof.
  cbv zeta. rewrite process_raw_file_run. cbv zeta.
  destruct (result_of (read_raw_file native file (self, [])))
    as [[image0|]|e] eqn:Hres; cbn [fst snd]; try discriminate.
  assert (Hrange : Forall (fun v => 0 <= v < 65536) (arr_data image0)).
  { destruct file as [raw|e0].
    - pose proof (read_raw_file_some native self [] raw image0 Hres) as Hs.
      cbv zeta in Hs. destruct Hs as (dt & _ & _ & _ & _ & ->).
      apply frame_of_range.
    - rewrite read_raw_file_io_error in Hres. discriminate. }
  destruct (arr_data image0) as [|v rest] eqn:Hdata; [discriminate|].
  pose proof (fold_min_spec rest v) as [Hlo_in Hlo].
  pose proof (fold_max_spec rest v) as [Hhi_in Hhi].
  assert (Hfound : forall tail0 tail1,
            In (SaidRange (fold_left Z.min rest v) (fold_left Z.max rest v))
               ((SaidProcessing filepath
                  :: map Said (log_after
                                 (read_raw_file native file (self, []))))
                ++ (SaidLoaded (arr_shape image0)
                      :: SaidRange (fold_left Z.min rest v)
                           (fold_left Z.max rest v) :: tail0) ++ tail1)).
  { intros tail0 tail1. apply in_or_app. right. right. left. reflexivity. }
  assert (Hgoal : In (fold_left Z.min rest v) (arr_data image0)
            /\ In (fold_left Z.max rest v) (arr_data image0)
            /\ Forall (fun x => fold_left Z.min rest v <= x
                                <= fold_left Z.max rest v) (arr_data image0)
            /\ 0 <= fold_left Z.min rest v
            /\ fold_left Z.max rest v < 65536).
  { rewrite Hdata. split; [exact Hlo_in|]. split; [exact Hhi_in|].
    rewrite Forall_forall in Hrange, Hlo, Hhi.
    split.
    - apply Forall_forall. intros x Hx.
      specialize (Hlo x Hx). specialize (Hhi x Hx). lia.
    - specialize (Hrange _ Hlo_in) as H1.
      specialize (Hrange _ Hhi_in) as H2. lia. }
  destruct (dict_get pattern_map bayer_pattern) as [code|];
    cbn [fst snd]; intros Heq; injection Heq as <- _;
    exists (fold_left Z.min rest v), (fold_left Z.max rest v);
    (split; [|exact Hgoal]).
  - apply (Hfound [_; _] _).
  - apply (Hfound [_] []).
Qed.

End Process.

(* ================================================================== *)
(** ** main: what is written, and where *)
(* ================================================================== *)





Section Main.

Variable native : byteorder.
Variable cvtColor : ndarray -> Z -> ndarray.
Variable imwrite : string -> ndarray -> outcome bool.

Lemma main_wrote args file_exists file path image :
  In (Wrote path image) (snd (main native cvtColor imwrite args file_exists
                                file)) ->
  file_exists = true
  /\ path = str_replace (arg_filepath args) ".raw" "_rgb.png"
  /\ exists raw_img rgb_img,
       fst (fst (process_raw_file native cvtColor
                   (init (arg_width args) (arg_height args) (arg_bits args))
                   (arg_filepath args) file (arg_pattern args)
                   (negb (arg_no_display args))))
       = Ret (Some raw_img, Some rgb_img)
       /\ image = cvtColor rgb_img COLOR_RGB2BGR.
Proof.
  unfold main. destruct file_exists; cbn [negb].
  2:{ cbn. intros [H|[]]. discriminate. }
  destruct (process_raw_file native cvtColor _ _ file _ _)
    as [[processed self'] events].
  cbn [fst].
  assert (Hpipe : ~ In (Wrote path image) (map Pipeline events)).
  { intros H. apply in_map_iff in H. destruct H as (x & Hx & _).
    discriminate. }
  destruct processed as [[[raw_img|] rgb]|e]; cbn [snd];
    try (intros H; exfalso; exact (Hpipe H)).
  destruct rgb as [rgb_img|]; cbn [snd].
  - intros H. split; [reflexivity|].
    assert (Hw : Wrote (str_replace (arg_filepath args) ".raw" "_rgb.png")
                   (cvtColor rgb_img COLOR_RGB2BGR) = Wrote path image).
    { destruct (imwrite _ _); cbn [snd] in H;
        repeat (apply in_app_or in H; destruct H as [H|H]);
        try (exfalso; exact (Hpipe H));
        cbn [In] in H; intuition discriminate. }
    injection Hw as <- <-. split; [reflexivity|].
    exists raw_img, rgb_img. split; reflexivity.
  - intros H. apply in_app_or in H. destruct H as [H|[H|[]]];
      [exfalso; exact (Hpipe H) | discriminate].
Qed.

(** X15. [main] writes an image only for a file that exists, was read as
    a frame and was demosaiced with one of the four patterns; the image
    written is the BGR conversion of the interpolation of the frame's high
    bytes. For a missing file it does nothing but say so. *)
Theorem main_writes_only_demosaiced args file_exists file path image :
  let events := snd (main native cvtColor imwrite args file_exists file) in
  (file_exists = false -> events = [SaidNotFound (arg_filepath args)])
  /\ (In (Wrote path image) events ->
      file_exists = true
      /\ In (arg_pattern args) bayer_patterns
      /\ exists raw_img code,
           result_of (read_raw_file native file
                        (init (arg_width args) (arg_height args)
                           (arg_bits args), []))
           = Ret (Some raw_img)
           /\ dict_get pattern_map (arg_pattern args) = Some code
           /\ image
              = cvtColor (cvtColor (astype (rshift raw_img 8) uint8) code)
                  COLOR_RGB2BGR).
Proof.
  cbv zeta. split.
  - intros ->. reflexivity.
  - intros H. apply main_wrote in H.
    destruct H as (Hex & _ & raw_img & rgb_img & Hproc & Himg).
    split; [exact Hex|].
    revert Hproc. rewrite process_raw_file_run. cbv zeta.
    destruct (result_of (read_raw_file native file _)) as [[image0|]|e];
      cbn [fst]; try discriminate.
    destruct (arr_data image0) as [|v rest]; [discriminate|].
    destruct (dict_get pattern_map (arg_pattern args)) as [code|] eqn:Hcode;
      cbn [fst]; [|discriminate].
    intros Heq. injection Heq as <- <-. split.
    + revert Hcode. unfold pattern_map, dict_get, bayer_patterns. cbn [In].
      repeat match goal with
      | |- context [String.eqb (arg_pattern args) ?k] =>
          destruct (String.eqb_spec (arg_pattern args) k) as [->|];
          [intros _; repeat ((left; reflexivity) || right)|]
      end.
      discriminate.
    + exists image0, code. repeat split. exact Himg.
Qed.


End Main.

(* ================================================================== *)
(** ** The bridge: replies *)
(* ================================================================== *)

Lemma json_get_set_same d key value :
  json_get (Bridge.dict_set d key value) key = Some value.
Proof.
  induction d as [|[k v] d IH]; cbn [Bridge.dict_set json_get].
  - rewrite String.eqb_refl. reflexivity.
  - destruct (String.eqb k key) eqn:Hk; cbn [json_get]; rewrite Hk.
    + reflexivity.
    + exact IH.
Qed.

Lemma json_get_set_other d key value other :
  other <> key ->
  json_get (Bridge.dict_set d key value) other = json_get d other.
Proof.
  intros Hneq.
  assert (Hkey : String.eqb key other = false)
    by (apply String.eqb_neq; congruence).
  induction d as [|[k v] d IH]; cbn [Bridge.dict_set json_get].
  - rewrite Hkey. reflexivity.
  - destruct (String.eqb_spec k key) as [->|Hk]; cbn [json_get].
    + rewrite Hkey. reflexivity.
    + rewrite IH. reflexivity.
Qed.

Lemma dict_set_keys d key value :
  map fst (Bridge.dict_set d key value)
  = if existsb (String.eqb key) (map fst d) then map fst d
    else map fst d ++ [key].
Proof.
  induction d as [|[k v] d IH]; cbn [Bridge.dict_set map fst existsb app];
    [reflexivity|].
  rewrite (String.eqb_sym key k).
  destruct (String.eqb k key); cbn [map fst orb]; [reflexivity|].
  rewrite IH. destruct (existsb _ _); reflexivity.
Qed.

Section Replies.

Variables EXECUTABLE_PATH CONFIG_PATH DATA_DIR : string.
Variable subprocess_run : Bridge.invocation -> Bridge.run_result.
Variable json_loads : string -> Bridge.loads_result.

Local Abbreviation handle :=
  (Bridge.handle EXECUTABLE_PATH CONFIG_PATH DATA_DIR subprocess_run
     json_loads).

Local Abbreviation call_of ep :=
  (Bridge.mk_invocation
     ([EXECUTABLE_PATH; "--config"%string; CONFIG_PATH]
        ++ Bridge.command_args ep)
     (Bridge.timeout_of ep) DATA_DIR).

(** The reply of an endpoint, by how [subprocess.run] and [json.loads]
    ended. *)
Lemma handle_run ep :
  fst (handle ep)
  = match subprocess_run (call_of ep) with
    | Bridge.TimeoutExpired => Bridge.Failed Bridge.timeout_error
    | Bridge.OtherException e =>
        Bridge.Failed
          (Bridge.mk_http_exception 500 ("Camera operation failed: " ++ e))
    | Bridge.Completed r =>
        if Bridge.returncode r =? 0 then
          match json_loads (Bridge.stdout r) with
          | Bridge.JSONDecodeError => Bridge.Failed (Bridge.invalid_error ep)
          | Bridge.LoadsRaised exception => Bridge.Uncaught exception
          | Bridge.Parsed parsed =>
              match ep, parsed with
              | Bridge.GET_cameras, Bridge.JObject _ => Bridge.Body parsed
              | Bridge.POST_capture_all, Bridge.JObject members =>
                  Bridge.Body
                    (Bridge.JObject
                       (Bridge.dict_set members "system_info"
                          (Bridge.system_info DATA_DIR)))
              | Bridge.GET_cameras, _ | Bridge.POST_capture_all, _ =>
                  Bridge.Uncaught "AttributeError"
              | _, _ => Bridge.Body parsed
              end
          end
        else Bridge.Failed (Bridge.exit_error ep)
    end.
Proof.
  destruct ep; cbn [Bridge.handle Bridge.command_args Bridge.timeout_of];
    unfold Bridge.list_cameras, Bridge.capture_all_cameras,
      Bridge.get_camera_parameters, Bridge.capture_single_camera,
      Bridge.run_camera_command, Bridge.default_timeout;
    destruct (subprocess_run _) as [r| |e]; cbn [fst]; try reflexivity;
    destruct (Bridge.returncode r =? 0); cbn [negb fst]; try reflexivity;
    destruct (json_loads (Bridge.stdout r)) as [[]| |]; reflexivity.
Qed.

(** X17. A successful capture-all relays the executable's JSON object
    with one change: the key [system_info] holds the bridge's own
    description, whether or not the executable sent that key; every other
    key keeps its value, and the keys keep their order, a new
    [system_info] coming last. *)
Theorem capture_all_adds_system_info r members :
  subprocess_run (call_of Bridge.POST_capture_all) = Bridge.Completed r ->
  Bridge.returncode r = 0 ->
  json_loads (Bridge.stdout r) = Bridge.Parsed (Bridge.JObject members) ->
  exists members',
    fst (handle Bridge.POST_capture_all)
    = Bridge.Body (Bridge.JObject members')
    /\ json_get members' "system_info" = Some (Bridge.system_info DATA_DIR)
    /\ (forall key, key <> "system_info"%string ->
          json_get members' key = json_get members key)
    /\ map fst members'
       = if existsb (String.eqb "system_info") (map fst members)
         then map fst members
         else map fst members ++ ["system_info"%string].
Proof.
  intros Hrun Hcode Hjson. rewrite handle_run, Hrun, Hcode, Hjson.
  cbn [Z.eqb]. eexists. split; [reflexivity|].
  split; [apply json_get_set_same|].
  split; [intros key Hkey; apply json_get_set_other, Hkey|].
  apply dict_set_keys.
Qed.

(** X18. An endpoint answers with a body only if the executable exited
    with code 0 and its output was parsed as JSON; except for capture-all
    the body is then exactly the parsed value. *)
Theorem body_only_after_success ep body :
  fst (handle ep) = Bridge.Body body ->
  exists r parsed,
    subprocess_run (call_of ep) = Bridge.Completed r
    /\ Bridge.returncode r = 0
    /\ json_loads (Bridge.stdout r) = Bridge.Parsed parsed
    /\ (ep <> Bridge.POST_capture_all -> body = parsed).
Proof.
  rewrite handle_run.
  destruct (subprocess_run (call_of ep)) as [r| |e]; try discriminate.
  destruct (Z.eqb_spec (Bridge.returncode r) 0) as [Hcode|]; [|discriminate].
  destruct (json_loads (Bridge.stdout r)) as [parsed| |exception] eqn:Hjson;
    [|discriminate|discriminate].
  intros Hbody. exists r, parsed.
  split; [reflexivity|]. split; [exact Hcode|]. split; [exact Hjson|].
  intros Hep. destruct ep; destruct parsed; try discriminate;
    try (injection Hbody as <-; reflexivity); contradiction.
Qed.

(** X19. The status of a failure reply is 404, 408 or 500, however
    [subprocess.run] and [json.loads] end: it is 408 exactly when
    [subprocess.run] raised [TimeoutExpired], and 404 exactly when
    [subprocess.run] returned a completed process with an exit code other
    than 0 on a request for one camera's parameters. (When
    [subprocess.run] raises anything else, as it does for output that
    cannot be decoded, the status is 500 whatever the exit code was.) *)
Theorem failure_status_codes ep e :
  fst (handle ep) = Bridge.Failed e ->
  (Bridge.status_code e = 404 \/ Bridge.status_code e = 408
   \/ Bridge.status_code e = 500)
  /\ (Bridge.status_code e = 408
      <-> subprocess_run (call_of ep) = Bridge.TimeoutExpired)
  /\ (Bridge.status_code e = 404
      <-> exists camera_id r,
            ep = Bridge.GET_camera camera_id
            /\ subprocess_run (call_of ep) = Bridge.Completed r
            /\ Bridge.returncode r <> 0)
  /\ (forall err, subprocess_run (call_of ep) = Bridge.OtherException err ->
        e = Bridge.mk_http_exception 500 ("Camera operation failed: " ++ err)).
Proof.
  rewrite handle_run.
  destruct (subprocess_run (call_of ep)) as [r| |err].
  - destruct (Z.eqb_spec (Bridge.returncode r) 0) as [Hcode|Hcode].
    + destruct (json_loads (Bridge.stdout r)) as [parsed| |exception].
      * destruct ep; destruct parsed; discriminate.
      * intros H. injection H as <-.
        split; [destruct ep; cbn; tauto|]. split; [|split].
        -- split; [destruct ep; discriminate | discriminate].
        -- split; [destruct ep; discriminate|].
           intros (c & r' & _ & Hr & Hne). injection Hr as <-. contradiction.
        -- discriminate.
      * discriminate.
    + intros H. injection H as <-.
      split; [destruct ep; cbn; tauto|]. split; [|split].
      * split; [destruct ep; discriminate | discriminate].
      * split.
        -- destruct ep as [| |camera_id|camera_id]; try discriminate.
           intros _. exists camera_id, r. repeat split. exact Hcode.
        -- intros (c & r' & -> & _ & _). reflexivity.
      * discriminate.
  - intros H. injection H as <-.
    split; [cbn; tauto|]. split; [|split].
    + split; reflexivity.
    + split; [discriminate|]. intros (c & r' & _ & Hr & _). discriminate.
    + discriminate.
  - intros H. injection H as <-.
    split; [cbn; tauto|]. split; [|split].
    + split; discriminate.
    + split; [discriminate|]. intros (c & r' & _ & Hr & _). discriminate.
    + intros err' Herr. injection Herr as <-. reflexivity.
Qed.

(** X20. After exit code 0: a value returned by [json.loads] that is not
    an object is relayed as it is by the two endpoints for one camera,
    while listing the cameras and capture-all fail on it with an uncaught
    [AttributeError]; and an exception of [json.loads] other than
    [JSONDecodeError] (a [RecursionError] on deep nesting) leaves every
    endpoint uncaught. Neither is one of the bridge's own error replies. *)
Theorem non_object_json ep r :
  subprocess_run (call_of ep) = Bridge.Completed r ->
  Bridge.returncode r = 0 ->
  (forall parsed,
     json_loads (Bridge.stdout r) = Bridge.Parsed parsed ->
     (forall members, parsed <> Bridge.JObject members) ->
     fst (handle ep)
     = match ep with
       | Bridge.GET_cameras | Bridge.POST_capture_all =>
           Bridge.Uncaught "AttributeError"
       | _ => Bridge.Body parsed
       end)
  /\ (forall exception,
        json_loads (Bridge.stdout r) = Bridge.LoadsRaised exception ->
        fst (handle ep) = Bridge.Uncaught exception).
Proof.
  intros Hrun Hcode. rewrite handle_run, Hrun, Hcode. cbn [Z.eqb]. split.
  - intros parsed Hjson Hobj. rewrite Hjson.
    destruct ep; destruct parsed; try reflexivity;
      exfalso; eapply Hobj; reflexivity.
  - intros exception Hjson. rewrite Hjson. reflexivity.
Qed.

End Replies.

Section Stderr.

Variables EXECUTABLE_PATH CONFIG_PATH DATA_DIR : string.
Variable json_loads : string -> Bridge.loads_result.

(** X21. Once [subprocess.run] has returned, the text it captured from
    the standard error plays no part in the reply, and after an exit code
    other than 0 neither does the captured standard output: two runs that
    end alike (the same exception, or completed processes with the same
    exit code and, when that is 0, the same standard output) get the same
    reply and the same invocation on every endpoint. *)
Theorem reply_ignores_stderr
    (run1 run2 : Bridge.invocation -> Bridge.run_result) ep :
  (forall call,
     match run1 call, run2 call with
     | Bridge.Completed r1, Bridge.Completed r2 =>
         Bridge.returncode r1 = Bridge.returncode r2
         /\ (Bridge.returncode r1 = 0 -> Bridge.stdout r1 = Bridge.stdout r2)
     | Bridge.TimeoutExpired, Bridge.TimeoutExpired => True
     | Bridge.OtherException e1, Bridge.OtherException e2 => e1 = e2
     | _, _ => False
     end) ->
  Bridge.handle EXECUTABLE_PATH CONFIG_PATH DATA_DIR run1 json_loads ep
  = Bridge.handle EXECUTABLE_PATH CONFIG_PATH DATA_DIR run2 json_loads ep.
Proof.
  intros Hsame.
  destruct ep; cbn [Bridge.handle];
    unfold Bridge.list_cameras, Bridge.capture_all_cameras,
      Bridge.get_camera_parameters, Bridge.capture_single_camera,
      Bridge.run_camera_command, Bridge.default_timeout;
    match goal with
    | |- context [run1 ?c] => specialize (Hsame c)
    end;
    destruct (run1 _) as [r1| |e1]; destruct (run2 _) as [r2| |e2];
    try contradiction; try reflexivity;
    try (subst; reflexivity);
    destruct Hsame as [Hcode Hout]; rewrite <- Hcode;
    (destruct (Z.eqb_spec (Bridge.returncode r1) 0) as [Hz|Hz];
     cbn [negb]; [rewrite <- (Hout Hz)|]; reflexivity).
Qed.

End Stderr.

(* ================================================================== *)
(** ** The further properties on concrete inputs *)
(* ================================================================== *)

(** Four bytes under a 2x1 hint are accepted as two 16-bit samples. *)
Lemma accepted_exactly_when_witness :
  exists image,
    result_of (read_raw_file LittleEndian (Ret [x01; x02; x03; x04])
                 (init 2 1 12, []))
    = Ret (Some image).
Proof.
  pose proof (accepted_exactly_when LittleEndian (init 2 1 12) []
                [x01; x02; x03; x04]) as H.
  cbv zeta in H. destruct (H eq_refl eq_refl) as [_ Hback].
  apply Hback. left.
  split; [left; reflexivity|]. split; discriminate.
Defined.

Lemma frame_well_formed_witness :
  arr_shape (mk_ndarray uint16 [1; 2] [8208; 16432]) = [1; 2]
  /\ Forall (fun v => 0 <= v < 65536)
       (arr_data (mk_ndarray uint16 [1; 2] [8208; 16432])).
Proof.
  pose proof (frame_well_formed LittleEndian (init 2 1 12) []
                [x01; x02; x03; x04]
                (mk_ndarray uint16 [1; 2] [8208; 16432])) as H.
  cbv zeta in H. destruct H as (_ & Hshape & _ & Hrange); [reflexivity|].
  split; [exact Hshape | exact Hrange].
Defined.

Lemma reader_describes_file_witness :
  buffer_size [x0a; xff] = 2 * 1 * 1.
Proof.
  pose proof (reader_describes_file LittleEndian (init 2 1 12) []
                [x0a; xff] (mk_ndarray uint16 [1; 2] [2560; 65280])) as H.
  cbv zeta in H. destruct H as (Hsize & _); [reflexivity|].
  exact Hsize.
Defined.

Lemma zero_file_gives_zero_frame_witness :
  result_of (read_raw_file LittleEndian (Ret (repeat x00 12))
               (init 3 2 12, []))
  = Ret (Some (mk_ndarray uint16 [2; 3] [0; 0; 0; 0; 0; 0])).
Proof.
  apply (zero_file_gives_zero_frame LittleEndian (init 3 2 12) [] uint16);
    (split; [discriminate | reflexivity]).
Defined.

Lemma odd_quarter_file_size :
  buffer_size (x00 :: quarter_frame ++ quarter_frame) = 1028 * 752 * 2 + 1.
Proof. vm_compute. reflexivity. Qed.

Lemma odd_byte_after_candidate_witness :
  result_of (read_raw_file LittleEndian
               (Ret (x00 :: quarter_frame ++ quarter_frame))
               (init 640 480 12, []))
  = Ret None
  /\ reader_after (read_raw_file LittleEndian
                     (Ret (x00 :: quarter_frame ++ quarter_frame))
                     (init 640 480 12, []))
     = mk_reader 1028 752 12 2.
Proof.
  pose proof (odd_byte_after_candidate LittleEndian (init 640 480 12) []
                (x00 :: quarter_frame ++ quarter_frame) 1028 752) as H.
  cbv zeta in H. rewrite odd_quarter_file_size in H.
  destruct H as (Hres & Hreader & _);
    [right; right; left; reflexivity | reflexivity
     | discriminate | discriminate |].
  split; [exact Hres | exact Hreader].
Defined.

Lemma negative_hint_stops_detection_witness :
  result_of (read_raw_file LittleEndian (Ret [x01; x02; x03; x04])
               (init (-2) (-1) 12, []))
  = Ret None.
Proof.
  pose proof (negative_hint_stops_detection LittleEndian (init (-2) (-1) 12)
                [] [x01; x02; x03; x04]) as H.
  cbv zeta in H.
  destruct H as (Hres & _); [left; reflexivity | left; reflexivity|].
  exact Hres.
Defined.

Lemma hints_lost_after_auto_detect_witness :
  (exists image,
     result_of (read_raw_file LittleEndian (Ret [x01; x02; x03; x04])
                  (init 2 1 12, []))
     = Ret (Some image))
  /\ result_of (read_raw_file LittleEndian (Ret [x01; x02; x03; x04])
                  (snd (read_raw_file LittleEndian (Ret quarter_frame)
                          (init 2 1 12, []))))
     = Ret None.
Proof.
  apply (hints_lost_after_auto_detect LittleEndian (init 2 1 12) []
           [x01; x02; x03; x04] quarter_frame);
    try reflexivity; try (split; [discriminate | reflexivity]).
  rewrite quarter_frame_size. vm_compute. tauto.
Defined.

Lemma frame_determines_file_witness : [x0a; xff] = [x0a; xff].
Proof.
  apply (frame_determines_file LittleEndian (init 2 1 12) []
           [x0a; xff] [x0a; xff] (mk_ndarray uint16 [1; 2] [2560; 65280]));
    try reflexivity.
  left. reflexivity.
Defined.

Lemma demosaic_gets_high_bits_witness :
  demosaic_bayer (fun src _ => src) (mk_ndarray uint16 [1; 2] [8208; 16432])
    "GBRG"
  = (Some (mk_ndarray uint8 [1; 2] [32; 64]),
     [CvtColorCall (mk_ndarray uint8 [1; 2] [32; 64]) 47]).
Proof.
  pose proof (demosaic_gets_high_bits LittleEndian (fun src _ => src)
                (init 2 1 12) [] [x01; x02; x03; x04]
                (mk_ndarray uint16 [1; 2] [8208; 16432]) "GBRG" 47) as H.
  cbv zeta in H.
  destruct H as (H12 & _); [reflexivity | reflexivity | reflexivity |].
  apply H12; [reflexivity|]. repeat constructor.
Defined.

(** An empty file under a 0x5 hint is a frame without samples, and its
    minimum cannot be taken. *)
Lemma process_raises_only_on_empty_frame_witness :
  exists e,
    fst (fst (process_raw_file LittleEndian (fun src _ => src) (init 0 5 12)
                "empty.raw" (Ret []) "RGGB" false))
    = Raise e.
Proof.
  pose proof (process_raises_only_on_empty_frame LittleEndian
                (fun src _ => src) (init 0 5 12) "empty.raw" (Ret [])
                "RGGB" false) as H.
  destruct (H eq_refl eq_refl) as [_ Hback].
  apply Hback. split; [reflexivity|]. split; [reflexivity|].
  split; discriminate.
Defined.

Lemma process_returns_read_then_demosaic_witness :
  result_of (read_raw_file LittleEndian (Ret [x0a; xff]) (init 2 1 12, []))
  = Ret (Some (mk_ndarray uint16 [1; 2] [2560; 65280])).
Proof.
  pose proof (process_returns_read_then_demosaic LittleEndian
                (fun src _ => src) (init 2 1 12) "cam.raw" (Ret [x0a; xff])
                "XYZZY" true
                (Some (mk_ndarray uint16 [1; 2] [2560; 65280])) None) as H.
  cbv zeta in H. destruct H as (Hread & _); [reflexivity|].
  exact Hread.
Defined.

Lemma printed_range_is_min_and_max_witness :
  exists lo hi,
    In (SaidRange lo hi)
       (snd (process_raw_file LittleEndian (fun src _ => src) (init 2 1 12)
               "cam.raw" (Ret [x0a; xff]) "RGGB" false))
    /\ In lo [2560; 65280] /\ In hi [2560; 65280].
Proof.
  destruct (printed_range_is_min_and_max LittleEndian (fun src _ => src)
              (init 2 1 12) "cam.raw" (Ret [x0a; xff]) "RGGB" false
              (mk_ndarray uint16 [1; 2] [2560; 65280])
              (Some (mk_ndarray uint8 [1; 2] [10; 255])) eq_refl)
    as (lo & hi & Hsaid & Hlo & Hhi & _).
  exists lo, hi. split; [exact Hsaid|]. split; [exact Hlo | exact Hhi].
Defined.


Lemma capture_all_adds_system_info_witness :
  exists members',
    fst (Bridge.handle "capture.exe" "config.json" "data"
           (fun _ => Bridge.Completed (Bridge.mk_completed 0 "{}" ""))
           (fun _ => Bridge.Parsed
                       (Bridge.JObject
                          [("total_images"%string, Bridge.JInt 3)]))
           Bridge.POST_capture_all)
    = Bridge.Body (Bridge.JObject members')
    /\ json_get members' "total_images" = Some (Bridge.JInt 3)
    /\ json_get members' "system_info" = Some (Bridge.system_info "data").
Proof.
  destruct (capture_all_adds_system_info "capture.exe" "config.json" "data"
              (fun _ => Bridge.Completed (Bridge.mk_completed 0 "{}" ""))
              (fun _ => Bridge.Parsed
                          (Bridge.JObject
                             [("total_images"%string, Bridge.JInt 3)]))
              (Bridge.mk_completed 0 "{}" "")
              [("total_images"%string, Bridge.JInt 3)]
              eq_refl eq_refl eq_refl)
    as (members' & Hbody & Hinfo & Hkeep & _).
  exists members'. split; [exact Hbody|]. split; [|exact Hinfo].
  rewrite Hkeep; [reflexivity | discriminate].
Defined.

Lemma body_only_after_success_witness :
  exists r,
    Bridge.returncode r = 0 /\ Bridge.stdout r = "[]"%string.
Proof.
  destruct (body_only_after_success "capture.exe" "config.json" "data"
              (fun _ => Bridge.Completed
                          (Bridge.mk_completed 0 "[]" "warning"))
              (fun _ => Bridge.Parsed (Bridge.JArray [])) (Bridge.GET_camera "7")
              (Bridge.JArray []) eq_refl)
    as (r & parsed & Hrun & Hcode & _).
  exists r. split; [exact Hcode|].
  injection Hrun as <-. reflexivity.
Defined.

Lemma failure_status_codes_witness :
  exists camera_id r,
    Bridge.GET_camera "7" = Bridge.GET_camera camera_id
    /\ Bridge.Completed (Bridge.mk_completed 1 "" "no camera")
       = Bridge.Completed r
    /\ Bridge.returncode r <> 0.
Proof.
  destruct (failure_status_codes "capture.exe" "config.json" "data"
              (fun _ => Bridge.Completed
                          (Bridge.mk_completed 1 "" "no camera"))
              (fun _ => Bridge.JSONDecodeError) (Bridge.GET_camera "7")
              (Bridge.mk_http_exception 404 "Camera 7 not found") eq_refl)
    as (_ & _ & Hnot_found & _).
  apply Hnot_found. reflexivity.
Defined.

Lemma non_object_json_witness :
  fst (Bridge.handle "capture.exe" "config.json" "data"
         (fun _ => Bridge.Completed (Bridge.mk_completed 0 "[]" ""))
         (fun _ => Bridge.Parsed (Bridge.JArray [])) Bridge.GET_cameras)
  = Bridge.Uncaught "AttributeError".
Proof.
  destruct (non_object_json "capture.exe" "config.json" "data"
              (fun _ => Bridge.Completed (Bridge.mk_completed 0 "[]" ""))
              (fun _ => Bridge.Parsed (Bridge.JArray [])) Bridge.GET_cameras
              (Bridge.mk_completed 0 "[]" "") eq_refl eq_refl)
    as [Hvalue _].
  apply (Hvalue (Bridge.JArray [])); [reflexivity | discriminate].
Defined.

Lemma reply_ignores_stderr_witness :
  Bridge.handle "capture.exe" "config.json" "data"
    (fun _ => Bridge.Completed (Bridge.mk_completed 1 "partial" "disk full"))
    (fun _ => Bridge.JSONDecodeError) Bridge.POST_capture_all
  = Bridge.handle "capture.exe" "config.json" "data"
      (fun _ => Bridge.Completed (Bridge.mk_completed 1 "" "no camera"))
      (fun _ => Bridge.JSONDecodeError) Bridge.POST_capture_all.
Proof.
  apply reply_ignores_stderr.
  intros call. cbn. split; [reflexivity | discriminate].
Defined.
